(** * Gemini2 PowerShell Command Gen: the prompt, extraction and save pipeline

    A shallow embedding of [detailed-comments-app.py]: the prompt built by
    [generate_powershell_command], the model call of [send_message_to_model],
    the extraction and file write of [parse_and_save_ps1], and the part of
    [main] that chains them.

    A Python [str] is a sequence of Unicode code points: here a list of [N].
    The regular expression of [parse_and_save_ps1] is run by a backtracking
    matcher over the operations the pattern compiles to.  A file is the text
    written and the encoding asked for; its bytes are derived from them for
    the encoding utf-8, with the line ends of the operating system. *)

From Stdlib Require Import NArith QArith Ascii String.
From stdpp Require Import gmap list.

Local Open Scope N_scope.

(** ** Strings *)

(** An ASCII literal of the source, as a Python string. *)
Definition py (s : string) : list N :=
  List.map N_of_ascii (list_ascii_of_string s).

Definition LF : N := 10.
Definition SPACE : N := 32.
Definition UNDERSCORE : N := 95.
Definition BACKTICK : N := 96.
Definition QUOTE : N := 34.

(** [Py_UNICODE_ISSPACE]: the characters [str.strip] removes and the
    pattern's [\s] accepts (category Zs, or bidirectional class WS, B or S). *)
Definition isspace (c : N) : bool :=
  ((9 <=? c) && (c <=? 13)) || ((28 <=? c) && (c <=? 32))
  || (c =? 133) || (c =? 160) || (c =? 5760)
  || ((8192 <=? c) && (c <=? 8202))
  || (c =? 8232) || (c =? 8233) || (c =? 8239) || (c =? 8287) || (c =? 12288).

(** [s.lstrip()]. *)
Fixpoint lstrip (s : list N) : list N :=
  match s with
  | c :: s' => if isspace c then lstrip s' else s
  | [] => []
  end.

(** [s.rstrip()]. *)
Fixpoint rstrip (s : list N) : list N :=
  match s with
  | c :: s' =>
      match rstrip s' with
      | [] => if isspace c then [] else [c]
      | t => c :: t
      end
  | [] => []
  end.

(** [s.strip()]. *)
Definition strip (s : list N) : list N := rstrip (lstrip s).

(** [s.replace(old, new)] for one-character [old] and [new]. *)
Definition replace_char (old new : N) (s : list N) : list N :=
  List.map (fun c => if c =? old then new else c) s.

(** [c.lower()] on the ASCII characters.  The interpreter's table for the
    code points beyond ASCII (which depends on its Unicode version, and where
    one character can become two) is not reproduced: here they are left as
    they are.  [lower] is [str.lower] on ASCII text only, and every statement
    below that goes through it is made for ASCII text. *)
Definition lower_char (c : N) : N :=
  if (65 <=? c) && (c <=? 90) then c + 32 else c.

Definition lower (s : list N) : list N := List.map lower_char s.

(** ** The short title and the file name *)

(** [main]: [short_title = prompt_base[:30].strip().replace(" ", "_").lower()].
    Through [lower], this is the code's short title for a description whose
    first 30 characters are ASCII. *)
Definition short_title (prompt_base : list N) : list N :=
  lower (replace_char SPACE UNDERSCORE (strip (firstn 30 prompt_base))).

(** [parse_and_save_ps1]: [file_name = f"command_{short_title}.ps1"]. *)
Definition file_name_of (title : list N) : list N :=
  py "command_" ++ title ++ py ".ps1".

Definition example_description : list N :=
  py "List all running processes that use CPU".

(** ** The regular expression engine

    [re.search(r'```powershell\s*(.*?)\s*```', ai_code, re.DOTALL | re.IGNORECASE)].
    The pattern compiles to a flat sequence of operations: literals, a greedy
    repeat of the whitespace category, the two marks of group 1 around a lazy
    repeat of "any character" ([re.DOTALL]: line breaks included), a greedy
    repeat of the whitespace category and three literals. *)

(** What one subject character is tested against. *)
Inductive atom : Type :=
  | Literal (c : N)
  | CategorySpace
  | AnyAll.

(** A literal under [re.IGNORECASE]: the engine lowercases the subject
    character by its simple case mapping and compares it with the literal's
    lowercase and that letter's case-fix equivalents.  For an ASCII literal
    that is: the letter, its capital, and the three code points that fold to
    an ASCII letter (U+017F for s, U+212A for k, U+0130 and U+0131 for i). *)
Definition literal_ignorecase (lit ch : N) : bool :=
  let lo := lower_char lit in
  if (97 <=? lo) && (lo <=? 122) then
    (ch =? lo) || (ch =? lo - 32)
    || ((lo =? 115) && (ch =? 383))
    || ((lo =? 107) && (ch =? 8490))
    || ((lo =? 105) && ((ch =? 304) || (ch =? 305)))
  else ch =? lit.

Definition accepts (a : atom) (ch : N) : bool :=
  match a with
  | Literal c => literal_ignorecase c ch
  | CategorySpace => isspace ch
  | AnyAll => true
  end.

(** One operation of a compiled pattern. *)
Inductive op : Type :=
  | One (a : atom)
  | MaxRepeat (a : atom)
  | MinRepeat (a : atom)
  | MarkOpen
  | MarkClose.

(** A successful match: where group 1 opens and closes and where the match
    ends, each a pointer into the subject, that is the text from there on. *)
Record match_state : Type := MatchState {
  group_open : list N;
  group_close : list N;
  match_end : list N
}.

(** The text between the marks of group 1: [match.group(1)]. *)
Definition group1 (m : match_state) : list N :=
  firstn (length (group_open m) - length (group_close m))%nat (group_open m).

(** The matcher at one position, with backtracking: a greedy repeat first
    takes as many characters as it can and gives them back one at a time, a
    lazy repeat first tries the rest of the pattern and takes one character
    more each time that rest fails. *)
Fixpoint sre_match (code : list op) (s mo mc : list N) : option match_state :=
  match code with
  | [] => Some (MatchState mo mc s)
  | One a :: code' =>
      match s with
      | ch :: s' => if accepts a ch then sre_match code' s' mo mc else None
      | [] => None
      end
  | MarkOpen :: code' => sre_match code' s s mc
  | MarkClose :: code' => sre_match code' s mo s
  | MaxRepeat a :: code' =>
      (fix greedy (s : list N) : option match_state :=
         match s with
         | ch :: s' =>
             if accepts a ch then
               match greedy s' with
               | Some m => Some m
               | None => sre_match code' s mo mc
               end
             else sre_match code' s mo mc
         | [] => sre_match code' s mo mc
         end) s
  | MinRepeat a :: code' =>
      (fix lazy (s : list N) : option match_state :=
         match sre_match code' s mo mc with
         | Some m => Some m
         | None =>
             match s with
             | ch :: s' => if accepts a ch then lazy s' else None
             | [] => None
             end
         end) s
  end.

(** [re.search]: the match at the leftmost position that has one. *)
Fixpoint sre_search (code : list op) (s : list N) : option match_state :=
  match sre_match code s [] [] with
  | Some m => Some m
  | None =>
      match s with
      | _ :: s' => sre_search code s'
      | [] => None
      end
  end.

(** The closing fence, three backticks. *)
Definition fence : list N := [BACKTICK; BACKTICK; BACKTICK].

(** The opening marker of the pattern: the fence and the language tag. *)
Definition opener : list N := fence ++ py "powershell".

(** The pattern of [parse_and_save_ps1], compiled. *)
Definition powershell_block : list op :=
  List.map (fun c => One (Literal c)) opener
  ++ [MaxRepeat CategorySpace; MarkOpen; MinRepeat AnyAll; MarkClose;
      MaxRepeat CategorySpace]
  ++ List.map (fun c => One (Literal c)) fence.

(** The end of the pattern: whitespace, greedily, then the fence. *)
Definition closing_code : list op :=
  MaxRepeat CategorySpace :: List.map (fun c => One (Literal c)) fence.

(** The lazy repeat of group 1, its closing mark and the end of the pattern. *)
Definition lazy_code : list op :=
  MinRepeat AnyAll :: MarkClose :: closing_code.

(** The pattern after its opening marker. *)
Definition group_code : list op :=
  MaxRepeat CategorySpace :: MarkOpen :: lazy_code.

(** ** Extraction *)

(** [parse_and_save_ps1], the extraction: group 1 of the first match,
    stripped, or else the whole reply, stripped. *)
Definition extract_code (ai_code : list N) : list N :=
  match sre_search powershell_block ai_code with
  | Some m => strip (group1 m)
  | None => strip ai_code
  end.

(** ** The header *)

(** What [datetime.datetime.now()] returns, by its fields. *)
Record datetime : Type := DateTime {
  year : N; month : N; day : N; hour : N; minute : N; second : N
}.

Definition digit (n : N) : N := 48 + n mod 10.

Definition two_digits (n : N) : list N := [digit (n / 10); digit n].

Definition four_digits (n : N) : list N :=
  [digit (n / 1000); digit (n / 100); digit (n / 10); digit n].

(** [d.strftime("%Y-%m-%d %H:%M:%S")], for a year of four digits. *)
Definition strftime (d : datetime) : list N :=
  four_digits (year d) ++ py "-" ++ two_digits (month d) ++ py "-"
  ++ two_digits (day d) ++ py " " ++ two_digits (hour d) ++ py ":"
  ++ two_digits (minute d) ++ py ":" ++ two_digits (second d).

Definition rule_line : list N :=
  py "#===============================================================================".

Definition banner_line : list N :=
  py "# Script Generated by Google Gemini 2 PowerShell Command Gen".

(** The part of the header literal before the date: the line break that
    follows the opening quotes, the rule line and the banner line. *)
Definition header_banner : list N :=
  [LF] ++ rule_line ++ [LF] ++ banner_line ++ [LF].

(** [parse_and_save_ps1]: the [header] f-string. *)
Definition header (current_date : list N) : list N :=
  header_banner
  ++ py "# Date: " ++ current_date ++ [LF]
  ++ py "# Author: Elias Andrade AKA Chaos4455" ++ [LF]
  ++ rule_line ++ [LF]
  ++ py "    ".

(** ** The host: clock, model service and file system *)

(** The generation settings [send_message_to_model] builds. *)
Record generation_config : Type := GenerationConfig {
  cfg_temperature : Q;
  top_p : Q;
  top_k : N;
  response_mime_type : list N;
  max_output_tokens : N
}.

(** What the call [MODEL.start_chat(history=[]).send_message(message)] and
    the read of [response.text] come to: the reply's text, or an exception. *)
Inductive api_outcome : Type :=
  | ApiText (text : list N)
  | ApiRaise (e : list N).

(** What [open(file_name, "w", encoding=encoding)] and [f.write(ps1_code)]
    come to: the text is written; [open] raises and nothing is touched; or
    the file is opened, hence created or emptied, and the text is refused by
    the codec. *)
Inductive write_outcome : Type :=
  | WriteOk
  | OpenError
  | EncodeError.

Record Host : Type := MkHost {
  clock : datetime;
  send_message : list N -> generation_config -> list N -> api_outcome;
  try_write : list N -> list N -> list N -> write_outcome
}.

(** A file: the text written to it and the encoding it was written in. *)
Record file : Type := File {
  file_encoding : list N;
  file_text : list N
}.

(** What the page shows. *)
Inductive ui_event : Type :=
  | StError (body : list N)
  | StMarkdown (body : list N)
  | StCode (body language : list N)
  | StDownloadButton (label data file_name mime : list N).

Record World : Type := MkWorld {
  files : gmap (list N) file;
  page : list ui_event
}.

Definition show (e : ui_event) (w : World) : World :=
  MkWorld (files w) (page w ++ [e]).

Definition store (name : list N) (f : file) (w : World) : World :=
  MkWorld (<[name := f]> (files w)) (page w).

(** A call that returns a value or raises, and the world it leaves. *)
Inductive outcome (A : Type) : Type :=
  | Returned (a : A) (w : World)
  | Raised (w : World).

Arguments Returned {A} a w.
Arguments Raised {A} w.

(** ** [send_message_to_model] *)

Definition error_communicating : list N :=
  [10060] ++ py " Error communicating with the AI: ".

Definition send_message_to_model (h : Host) (message model_name : list N)
    (temperature : Q) (max_tokens : N) (w : World) : option (list N) * World :=
  let GENERATION_CONFIG :=
    GenerationConfig temperature (8 # 10) 40 (py "text/plain") max_tokens in
  match send_message h model_name GENERATION_CONFIG message with
  | ApiText text => (Some text, w)
  | ApiRaise e => (None, show (StError (error_communicating ++ e)) w)
  end.

(** ** [generate_powershell_command] *)

(** The arguments of [generate_powershell_command], in its order. *)
Record GenerationRequest : Type := MkRequest {
  prompt_base : list N;
  detail_level : list N;
  script_type : list N;
  security_level : list N;
  model_name : list N;
  temperature : Q;
  max_tokens : N;
  prompt_detail : list N;
  encoding : list N;
  add_header : bool;
  add_error_handling : bool;
  log_level : list N
}.

(** A boolean in an f-string. *)
Definition py_bool (b : bool) : list N :=
  if b then py "True" else py "False".

(** The [prompt] f-string. *)
Definition build_prompt (r : GenerationRequest) : list N :=
  [LF]
  ++ py "    You are a Powershell expert. Your task is to generate a single Powershell command based on the following description:" ++ [LF]
  ++ [LF]
  ++ py "    **Goal:** Create the most complete, detailed, and efficient Powershell command possible, considering all variables and scenarios." ++ [LF]
  ++ [LF]
  ++ py "    **Command Description:** " ++ prompt_base r ++ [LF]
  ++ [LF]
  ++ py "    **Detail Level:** " ++ detail_level r ++ [LF]
  ++ py "    **Script Type:** " ++ script_type r ++ [LF]
  ++ py "    **Security Level:** " ++ security_level r ++ [LF]
  ++ py "    **Prompt Detail Level**:" ++ prompt_detail r ++ [LF]
  ++ [LF]
  ++ py "    **Response Format:**" ++ [LF]
  ++ py "    - Respond in Markdown format, including a Powershell code block with its original formatting, without line breaks." ++ [LF]
  ++ py "    - The Powershell code block must be delimited by ```powershell and ```." ++ [LF]
  ++ py "    - Do not include comments, explanations, or any other text outside the code block." ++ [LF]
  ++ py "    - The Powershell code must maintain its full vertical formatting, respecting indentation and line breaks." ++ [LF]
  ++ py "    - The code must be realistic, using real-world examples, data, and situations." ++ [LF]
  ++ py "    - Explore different approaches, techniques, and advanced practices." ++ [LF]
  ++ py "    - If generating a command with a chain of commands, do not use semicolons at the end or beginning." ++ [LF]
  ++ py "    - If necessary, use the pipe " ++ [QUOTE] ++ py "|" ++ [QUOTE] ++ py " to chain commands." ++ [LF]
  ++ py "    - Do not use any special formatting in the result, only the code." ++ [LF]
  ++ py "    - If the description asks to create a file, the command should create the file directly in the file system and not use a screen output for this." ++ [LF]
  ++ py "    - If the description asks to read a file, the command should read the file directly from the file system and not use a screen input for this." ++ [LF]
  ++ py "    - Use advanced PowerShell resources, such as pipelines, variables, functions, and script blocks, when necessary." ++ [LF]
  ++ py "     - The default operating system is Windows Server 2016, and the default Powershell version is 7, unless the user specifies otherwise." ++ [LF]
  ++ py "     - Make sure that the generated command is secure and follows the best Powershell practices." ++ [LF]
  ++ [LF]
  ++ py "    **Log Level**:" ++ log_level r ++ [LF]
  ++ py "    **Error Handling**:" ++ py_bool (add_error_handling r) ++ [LF]
  ++ [LF]
  ++ py "     **Important:**" ++ [LF]
  ++ py "    - Generate only one command at a time." ++ [LF]
  ++ py "    - Create the longest, most complete, and detailed code possible." ++ [LF]
  ++ py "    - Consider all the details of the request, expanding the response and improving the command." ++ [LF]
  ++ py "     - Use contextual information (such as PowerShell version and operating system) to generate the command." ++ [LF]
  ++ py "     - If possible, use incremental reasoning to add improvements, expansions, and considerations to your code." ++ [LF]
  ++ py "     - Use the history of the conversations so that the response is incremental." ++ [LF]
  ++ [LF]
  ++ py "    ".

Definition generate_powershell_command (h : Host) (r : GenerationRequest)
    (w : World) : option (list N) * World :=
  send_message_to_model h (build_prompt r) (model_name r) (temperature r)
    (max_tokens r) w.

(** ** [parse_and_save_ps1] *)

(** The [if add_header:] block: the header, dated by the clock, before the
    code. *)
Definition with_header (h : Host) (add_header : bool) (ps1_code : list N) : list N :=
  if add_header then
    let current_date := strftime (clock h) in
    header current_date ++ ps1_code
  else ps1_code.

(** The value of [ps1_code] when the file is written: the extracted code,
    after the header when one is asked for. *)
Definition ps1_body (h : Host) (ai_code : list N) (add_header : bool) : list N :=
  with_header h add_header (extract_code ai_code).

Definition parse_and_save_ps1 (h : Host) (ai_code title encoding : list N)
    (add_header : bool) (w : World) : outcome (list N * list N) :=
  let ps1_code := ps1_body h ai_code add_header in
  let file_name := file_name_of title in
  match try_write h file_name encoding ps1_code with
  | WriteOk => Returned (file_name, ps1_code) (store file_name (File encoding ps1_code) w)
  | EncodeError => Raised (store file_name (File encoding []) w)
  | OpenError => Raised w
  end.

(** ** [main], from the click on the button *)

Definition please_enter : list N :=
  [9888; 65039] ++ py " Please enter a command description.".

Definition generated_command : list N :=
  py "### " ++ [9989] ++ py " Generated Command:".

Definition download_label : list N :=
  [11015; 65039] ++ py " Download Command (.ps1)".

Definition error_generating : list N :=
  [10060] ++ py " Error generating the command. Check the connection with the AI and try again.".

(** The description after the choice of a predefined prompt. *)
Definition with_preset (prompt_presets typed : list N) : list N :=
  if bool_decide (prompt_presets = py "None") then typed
  else
    match typed with
    | [] => prompt_presets
    | _ => prompt_presets ++ py " , " ++ typed
    end.

(** The body of [if st.button(...)]; the request holds the widgets' values,
    its description the one [with_preset] gave.  The file is named through
    [short_title]: the statements about that name are made for a description
    whose first 30 characters are ASCII. *)
Definition main (h : Host) (r : GenerationRequest) (w : World) : outcome unit :=
  match prompt_base r with
  | [] => Returned tt (show (StError please_enter) w)
  | _ =>
      match generate_powershell_command h r w with
      | (Some ((_ :: _) as ai_code), w1) =>
          let w2 := show (StMarkdown generated_command) w1 in
          let w3 := show (StCode ai_code (py "powershell")) w2 in
          match parse_and_save_ps1 h ai_code (short_title (prompt_base r))
                  (encoding r) (add_header r) w3 with
          | Returned (file_name_ps1, ps1_code) w4 =>
              Returned tt
                (show (StDownloadButton download_label ps1_code file_name_ps1
                         (py "application/powershell")) w4)
          | Raised w4 => Raised w4
          end
      | (_, w1) => Returned tt (show (StError error_generating) w1)
      end
  end.

(** ** The extraction, said directly

    What the pattern finds, without the engine: the first place where the
    opening marker stands, in any letter case, and the first fence after it. *)

(** [s] starts with [p], each character of [p] read as a literal of the
    pattern. *)
Fixpoint starts_ignorecase (p s : list N) : bool :=
  match p, s with
  | [], _ => true
  | c :: p', ch :: s' => literal_ignorecase c ch && starts_ignorecase p' s'
  | _ :: _, [] => false
  end.

(** [s] starts with [p], character for character. *)
Fixpoint starts_with (p s : list N) : bool :=
  match p, s with
  | [], _ => true
  | c :: p', ch :: s' => (ch =? c) && starts_with p' s'
  | _ :: _, [] => false
  end.

(** The text before the first opening marker and the text after it. *)
Fixpoint split_at_opener (s : list N) : option (list N * list N) :=
  if starts_ignorecase opener s then Some ([], skipn (length opener) s)
  else
    match s with
    | c :: s' =>
        match split_at_opener s' with
        | Some (a, b) => Some (c :: a, b)
        | None => None
        end
    | [] => None
    end.

(** The text before the first fence and the text after it. *)
Fixpoint split_at_fence (s : list N) : option (list N * list N) :=
  if starts_with fence s then Some ([], skipn (length fence) s)
  else
    match s with
    | c :: s' =>
        match split_at_fence s' with
        | Some (a, b) => Some (c :: a, b)
        | None => None
        end
    | [] => None
    end.

(** The extraction in these terms. *)
Definition extract_code_direct (ai_code : list N) : list N :=
  match split_at_opener ai_code with
  | Some (_, after) =>
      match split_at_fence after with
      | Some (interior, _) => strip interior
      | None => strip ai_code
      end
  | None => strip ai_code
  end.

(** An opening marker occurs in [s], in any letter case. *)
Definition has_opener (s : list N) : bool :=
  match split_at_opener s with Some _ => true | None => false end.

(** A fence occurs in [s]. *)
Definition has_fence (s : list N) : bool :=
  match split_at_fence s with Some _ => true | None => false end.

(** [s] is all whitespace. *)
Definition all_space (s : list N) : bool := forallb isspace s.

(** [m] is the opening marker in some letter case. *)
Definition opener_variant (m : list N) : bool :=
  starts_ignorecase opener m && (length m =? length opener)%nat.

(** The opening marker in capitals. *)
Definition upper_opener : list N := fence ++ py "POWERSHELL".

(** The last character of [s] is [c]. *)
Fixpoint last_is (c : N) (s : list N) : bool :=
  match s with
  | [] => false
  | [x] => x =? c
  | _ :: s' => last_is c s'
  end.

(** [parse_and_save_ps1] returned: the body it returned. *)
Definition body_of (o : outcome (list N * list N)) : option (list N) :=
  match o with
  | Returned (_, ps1_code) _ => Some ps1_code
  | Raised _ => None
  end.

(** The world a call leaves, returned or raised. *)
Definition world_of {A : Type} (o : outcome A) : World :=
  match o with
  | Returned _ w => w
  | Raised w => w
  end.

(** The call of [parse_and_save_ps1] writes [body] to the file named after
    the title and returns that name and [body]. *)
Definition saves (h : Host) (ai_code title enc : list N) (hd : bool) (w : World)
    (body : list N) : Prop :=
  parse_and_save_ps1 h ai_code title enc hd w
  = Returned (file_name_of title, body)
      (store (file_name_of title) (File enc body) w).

Definition is_st_error (e : ui_event) : bool :=
  match e with StError _ => true | _ => false end.

(** ** Sample values *)

Definition sample_clock : datetime := DateTime 2025 1 2 3 4 5.

Definition sample_reply : list N :=
  py "Here you go:" ++ [LF] ++ opener ++ [LF] ++ py "Get-Process" ++ [LF]
  ++ fence ++ [LF].

(** A host whose model answers [sample_reply] and whose disk takes any file. *)
Definition sample_host : Host :=
  MkHost sample_clock (fun _ _ _ => ApiText sample_reply) (fun _ _ _ => WriteOk).

(** A host whose model call raises. *)
Definition offline_host : Host :=
  MkHost sample_clock (fun _ _ _ => ApiRaise (py "503 Service Unavailable"))
    (fun _ _ _ => WriteOk).

Definition blank : World := MkWorld ∅ [].

Definition sample_request : GenerationRequest :=
  MkRequest example_description (py "Default") (py "More automatic") (py "Medium")
    (py "gemini-2.0-flash-exp") (7 # 10) 8192 (py "Default") (py "utf-8")
    true true (py "Default").

(** The same description and options sent to the other model, with other
    generation settings, file encoding and header choice. *)
Definition sample_request' : GenerationRequest :=
  MkRequest example_description (py "Default") (py "More automatic") (py "Medium")
    (py "gemini-1.5-flash") (2 # 10) 128 (py "Default") (py "ansi")
    false true (py "Default").

(** ** Text in ASCII *)

Definition is_ascii (c : N) : bool := c <? 128.

(** Every character of [s] is an ASCII character. *)
Definition ascii_text (s : list N) : bool := forallb is_ascii s.

(** An ASCII capital letter. *)
Definition is_upper (c : N) : bool := (65 <=? c) && (c <=? 90).

(** ** The bytes of the file and the bytes of the download

    [open(file_name, "w", encoding=encoding)] opens the file in text mode
    with [newline] left at its default: [f.write] replaces every line feed of
    the text by [os.linesep] and hands the result to the codec.
    [st.download_button], given a [str] as [data], serves [data.encode()]:
    the string as it is, in UTF-8. *)

(** [os.name], which decides [os.linesep]. *)
Inductive os_name : Type :=
  | posix
  | nt.

Definition CR : N := 13.

Definition linesep (o : os_name) : list N :=
  match o with
  | posix => [LF]
  | nt => [CR; LF]
  end.

(** What text mode passes to the codec for [s]. *)
Definition translate_newlines (o : os_name) (s : list N) : list N :=
  flat_map (fun c => if c =? LF then linesep o else [c]) s.

(** The UTF-8 bytes of one code point.  The codec is strict: it raises on a
    surrogate. *)
Definition utf8_char (c : N) : option (list N) :=
  if c <? 128 then Some [c]
  else if c <? 2048 then Some [192 + c / 64; 128 + c mod 64]
  else if (55296 <=? c) && (c <=? 57343) then None
  else if c <? 65536 then
    Some [224 + c / 4096; 128 + (c / 64) mod 64; 128 + c mod 64]
  else if c <? 1114112 then
    Some [240 + c / 262144; 128 + (c / 4096) mod 64; 128 + (c / 64) mod 64;
          128 + c mod 64]
  else None.

(** [s.encode("utf-8")]: the bytes, or none when the codec raises. *)
Fixpoint utf8_encode (s : list N) : option (list N) :=
  match s with
  | [] => Some []
  | c :: s' =>
      match utf8_char c, utf8_encode s' with
      | Some b, Some bs => Some (b ++ bs)
      | _, _ => None
      end
  end.

(** The bytes on disk of a file written under [encoding="utf-8"].  The bytes
    another codec gives ("ansi" is the code page of the Windows machine, and
    no codec elsewhere) are not modelled: there the result is none. *)
Definition file_bytes (o : os_name) (f : file) : option (list N) :=
  if bool_decide (file_encoding f = py "utf-8")
  then utf8_encode (translate_newlines o (file_text f))
  else None.

(** The bytes a download button serves. *)
Definition download_bytes (e : ui_event) : option (list N) :=
  match e with
  | StDownloadButton _ data _ _ => utf8_encode data
  | _ => None
  end.


(** ** The widgets of the page

    The values [main] reads from the page before the button is looked at, by
    the names of its variables. *)
Record Widgets : Type := MkWidgets {
  w_model_name : list N;
  w_temperature : Q;
  w_max_tokens : N;
  w_prompt_presets : list N;
  w_prompt_detail : list N;
  w_powershell_version : list N;
  w_operating_system : list N;
  w_encoding : list N;
  w_add_header : bool;
  w_add_error_handling : bool;
  w_log_level : list N;
  w_detail_level : list N;
  w_script_type : list N;
  w_security_level : list N;
  w_prompt_base : list N
}.

(** The arguments [main] passes to [generate_powershell_command]: the
    description after the choice of a predefined prompt, and the widgets'
    values but for the PowerShell version and the operating system, which
    [main] reads and passes nowhere. *)
Definition request_of (ws : Widgets) : GenerationRequest :=
  MkRequest (with_preset (w_prompt_presets ws) (w_prompt_base ws))
    (w_detail_level ws) (w_script_type ws) (w_security_level ws)
    (w_model_name ws) (w_temperature ws) (w_max_tokens ws) (w_prompt_detail ws)
    (w_encoding ws) (w_add_header ws) (w_add_error_handling ws) (w_log_level ws).

(** [main] for a page whose button was clicked. *)
Definition on_click (h : Host) (ws : Widgets) (w : World) : outcome unit :=
  main h (request_of ws) w.

(** The same page with another PowerShell version and operating system
    chosen. *)
Definition with_platform (ws : Widgets) (powershell_version operating_system : list N)
    : Widgets :=
  MkWidgets (w_model_name ws) (w_temperature ws) (w_max_tokens ws)
    (w_prompt_presets ws) (w_prompt_detail ws) powershell_version operating_system
    (w_encoding ws) (w_add_header ws) (w_add_error_handling ws) (w_log_level ws)
    (w_detail_level ws) (w_script_type ws) (w_security_level ws) (w_prompt_base ws).

(** The options the page offers. *)
Definition prompt_presets_options : list (list N) :=
  [py "None"; py "List files"; py "Manage processes"; py "Manage services"].

Definition prompt_detail_options : list (list N) :=
  [py "More descriptive"; py "Default"; py "Concise"].

Definition log_level_options : list (list N) :=
  [py "Detailed"; py "Default"; py "Minimum"].

Definition detail_level_options : list (list N) :=
  [py "More detailed"; py "Default"; py "More concise"].

Definition script_type_options : list (list N) :=
  [py "More automatic"; py "More interactive"].

Definition security_level_options : list (list N) :=
  [py "High"; py "Medium"; py "Low"].

(** The options of the request are among those the page offers. *)
Definition offered (r : GenerationRequest) : Prop :=
  In (detail_level r) detail_level_options
  /\ In (script_type r) script_type_options
  /\ In (security_level r) security_level_options
  /\ In (prompt_detail r) prompt_detail_options
  /\ In (log_level r) log_level_options.

(** The sentence of the prompt that names the platform. *)
Definition platform_sentence : list N :=
  py "The default operating system is Windows Server 2016, and the default Powershell version is 7, unless the user specifies otherwise.".

Definition sample_widgets : Widgets :=
  MkWidgets (py "gemini-2.0-flash-exp") (7 # 10) 8192 (py "Manage services")
    (py "Default") (py "5.1") (py "Windows 11") (py "utf-8") true true
    (py "Default") (py "Default") (py "More automatic") (py "Medium")
    (py "that are stopped").

(** A proof step: two texts that end in options of one list are equal; the
    options are equal, or one option would be the end of another. *)
Ltac peel_options H :=
  cbn [In] in *;
  repeat match goal with
         | K : _ \/ _ |- _ => destruct K as [K|K]
         | K : False |- _ => destruct K
         end;
  subst;
  first [ split; [exact (app_inv_tail _ _ _ H) | reflexivity]
        | exfalso; apply (f_equal (@rev N)) in H; rewrite !rev_app_distr in H;
          vm_compute in H; discriminate H ].

(** * Theorems *)

(** ** C1 *)

(** C1, as the claim states it, fails: the slice [[:30]] of the description
    "List all running processes that use CPU" ends after "tha", so the short
    title is "list_all_running_processes_tha" (30 characters) and not
    "list_all_running_processes_that" (31 characters); the file name differs
    accordingly. *)
Lemma short_title_example_not_that :
  (short_title example_description = py "list_all_running_processes_tha"
   /\ py "list_all_running_processes_tha" <> py "list_all_running_processes_that")
  /\ (file_name_of (short_title example_description)
        = py "command_list_all_running_processes_tha.ps1"
      /\ py "command_list_all_running_processes_tha.ps1"
         <> py "command_list_all_running_processes_that.ps1").
Proof.
  split; (split; [vm_compute; reflexivity | intros H; vm_compute in H; discriminate H]).
Qed.

(** C1 (amended): for the description "List all running processes that use
    CPU" the short title (first 30 characters, trimmed, spaces replaced by
    underscores, lowercased) is "list_all_running_processes_tha" and the file
    name is "command_list_all_running_processes_tha.ps1". *)
Theorem short_title_example :
  firstn 30 example_description = py "List all running processes tha"
  /\ short_title example_description = py "list_all_running_processes_tha"
  /\ file_name_of (short_title example_description)
     = py "command_list_all_running_processes_tha.ps1".
Proof. repeat split; vm_compute; reflexivity. Qed.

(** ** The engine, one operation at a time *)

Lemma sre_match_max a code s mo mc :
  sre_match (MaxRepeat a :: code) s mo mc =
  match s with
  | ch :: s' =>
      if accepts a ch then
        match sre_match (MaxRepeat a :: code) s' mo mc with
        | Some m => Some m
        | None => sre_match code s mo mc
        end
      else sre_match code s mo mc
  | [] => sre_match code s mo mc
  end.
Proof. destruct s; reflexivity. Qed.

Lemma sre_match_min a code s mo mc :
  sre_match (MinRepeat a :: code) s mo mc =
  match sre_match code s mo mc with
  | Some m => Some m
  | None =>
      match s with
      | ch :: s' =>
          if accepts a ch then sre_match (MinRepeat a :: code) s' mo mc else None
      | [] => None
      end
  end.
Proof. destruct s; reflexivity. Qed.

Lemma sre_match_literals p code s mo mc :
  sre_match (List.map (fun c => One (Literal c)) p ++ code) s mo mc =
  if starts_ignorecase p s then sre_match code (skipn (length p) s) mo mc
  else None.
Proof.
  revert s. induction p as [|c p IH]; intros s; [reflexivity|].
  destruct s as [|ch s]; [reflexivity|]. cbn [List.map app sre_match accepts].
  cbn [starts_ignorecase length skipn].
  destruct (literal_ignorecase c ch); [apply IH | reflexivity].
Qed.

Lemma backtick_literal ch : literal_ignorecase BACKTICK ch = (ch =? BACKTICK).
Proof. reflexivity. Qed.

Lemma starts_ignorecase_fence s : starts_ignorecase fence s = starts_with fence s.
Proof.
  destruct s as [|a [|b [|c s]]]; cbn [fence starts_ignorecase starts_with];
    rewrite ?backtick_literal; reflexivity.
Qed.

Lemma isspace_not_backtick c : isspace c = true -> (c =? BACKTICK) = false.
Proof.
  intros H. destruct (N.eqb_spec c BACKTICK) as [->|]; [discriminate H | reflexivity].
Qed.

Lemma starts_with_fence_space c s : isspace c = true -> starts_with fence (c :: s) = false.
Proof. intros H. cbn [fence starts_with]. rewrite (isspace_not_backtick c H). reflexivity. Qed.

Lemma starts_with_fence_lstrip s :
  starts_with fence s = true -> lstrip s = s.
Proof.
  destruct s as [|c s]; [reflexivity|]. intros H. cbn [lstrip].
  destruct (isspace c) eqn:E; [|reflexivity].
  rewrite (starts_with_fence_space c s E) in H. discriminate H.
Qed.

Lemma fence_match s mo mc :
  sre_match (List.map (fun c => One (Literal c)) fence) s mo mc =
  if starts_with fence s then Some (MatchState mo mc (skipn (length fence) s))
  else None.
Proof.
  rewrite <- (app_nil_r (List.map _ fence)), sre_match_literals.
  rewrite starts_ignorecase_fence. reflexivity.
Qed.

Lemma closing_match s mo mc :
  sre_match closing_code s mo mc =
  if starts_with fence (lstrip s)
  then Some (MatchState mo mc (skipn (length fence) (lstrip s)))
  else None.
Proof.
  unfold closing_code. induction s as [|c s IH].
  - reflexivity.
  - rewrite sre_match_max. cbn [accepts lstrip].
    destruct (isspace c) eqn:E.
    + rewrite IH. destruct (starts_with fence (lstrip s)); [reflexivity|].
      rewrite fence_match, (starts_with_fence_space c s E). reflexivity.
    + rewrite fence_match. reflexivity.
Qed.

(** ** Whitespace at the ends *)

Lemma rstrip_nil s : rstrip s = [] <-> all_space s = true.
Proof.
  induction s as [|c s IH]; [split; reflexivity|].
  cbn [rstrip all_space forallb]. fold (all_space s).
  destruct (rstrip s) as [|x t] eqn:R.
  - destruct (isspace c); cbn [andb].
    + split; [intros _; apply IH; reflexivity | reflexivity].
    + split; discriminate.
  - split; [discriminate|]. intros H. apply andb_prop in H as [_ H].
    apply IH in H. discriminate H.
Qed.

Lemma rstrip_cons_length c s :
  all_space (c :: s) = false -> length (rstrip (c :: s)) = S (length (rstrip s)).
Proof.
  intros H. cbn [rstrip]. destruct (rstrip s) as [|x t] eqn:R; [|reflexivity].
  apply rstrip_nil in R. cbn [all_space forallb] in H. fold (all_space s) in H.
  rewrite R, andb_true_r in H. rewrite H. reflexivity.
Qed.

(** ** The first fence *)

Lemma split_at_fence_eq s :
  split_at_fence s =
  if starts_with fence s then Some ([], skipn (length fence) s)
  else
    match s with
    | c :: s' =>
        match split_at_fence s' with
        | Some (a, b) => Some (c :: a, b)
        | None => None
        end
    | [] => None
    end.
Proof. destruct s; reflexivity. Qed.

Lemma split_at_fence_space c s :
  isspace c = true ->
  split_at_fence (c :: s) =
  match split_at_fence s with Some (a, b) => Some (c :: a, b) | None => None end.
Proof.
  intros H. rewrite split_at_fence_eq, (starts_with_fence_space c s H). reflexivity.
Qed.

Lemma split_at_fence_head c s a b :
  split_at_fence (c :: s) = Some (a, b) -> a = [] \/ exists a', a = c :: a'.
Proof.
  rewrite split_at_fence_eq. destruct (starts_with fence (c :: s)).
  - intros [= <- _]. left. reflexivity.
  - destruct (split_at_fence s) as [[a' b']|]; [|discriminate].
    intros [= <- _]. right. exists a'. reflexivity.
Qed.

(** After whitespace comes a fence exactly when only whitespace stands
    before the first fence. *)
Lemma fence_after_space s :
  starts_with fence (lstrip s) =
  match split_at_fence s with Some (a, _) => all_space a | None => false end.
Proof.
  induction s as [|c s IH]; [reflexivity|].
  rewrite split_at_fence_eq. destruct (starts_with fence (c :: s)) eqn:F.
  - rewrite (starts_with_fence_lstrip _ F). exact F.
  - cbn [lstrip]. destruct (isspace c) eqn:E.
    + rewrite IH. destruct (split_at_fence s) as [[a b]|]; [|reflexivity].
      cbn [all_space forallb]. rewrite E. reflexivity.
    + rewrite F. destruct (split_at_fence s) as [[a b]|]; [|reflexivity].
      cbn [all_space forallb]. rewrite E. reflexivity.
Qed.

Lemma rest_after_space s a b :
  split_at_fence s = Some (a, b) -> all_space a = true ->
  skipn (length fence) (lstrip s) = b.
Proof.
  revert a. induction s as [|c s IH]; intros a; [discriminate|].
  rewrite split_at_fence_eq. destruct (starts_with fence (c :: s)) eqn:F.
  - intros [= <- <-] _. rewrite (starts_with_fence_lstrip _ F). reflexivity.
  - destruct (split_at_fence s) as [[a' b']|]; [|discriminate].
    intros [= <- <-]. cbn [all_space forallb lstrip]. intros H.
    apply andb_prop in H as [E H]. rewrite E. apply (IH a'); [reflexivity | exact H].
Qed.

(** ** The pattern after its opening marker *)

Lemma lazy_match s mo mc :
  sre_match lazy_code s mo mc =
  match split_at_fence s with
  | Some (a, b) => Some (MatchState mo (skipn (length (rstrip a)) s) b)
  | None => None
  end.
Proof.
  unfold lazy_code. induction s as [|c s IH].
  - reflexivity.
  - rewrite sre_match_min.
    change (sre_match (MarkClose :: closing_code) (c :: s) mo mc)
      with (sre_match closing_code (c :: s) mo (c :: s)).
    rewrite closing_match, fence_after_space.
    destruct (split_at_fence (c :: s)) as [[a b]|] eqn:S.
    + destruct (all_space a) eqn:A.
      * rewrite (rest_after_space _ _ _ S A).
        apply rstrip_nil in A. rewrite A. reflexivity.
      * cbn [accepts]. rewrite IH.
        rewrite split_at_fence_eq in S.
        destruct (starts_with fence (c :: s)); [injection S as <- _; discriminate A|].
        destruct (split_at_fence s) as [[a' b']|]; [|discriminate S].
        injection S as <- <-. rewrite (rstrip_cons_length _ _ A). reflexivity.
    + cbn [accepts]. rewrite IH.
      rewrite split_at_fence_eq in S.
      destruct (starts_with fence (c :: s)); [discriminate S|].
      destruct (split_at_fence s) as [[a' b']|]; [discriminate S | reflexivity].
Qed.

Lemma group_match s mo mc :
  sre_match group_code s mo mc =
  match split_at_fence s with
  | Some (a, b) =>
      Some (MatchState (lstrip s) (skipn (length (strip a)) (lstrip s)) b)
  | None => None
  end.
Proof.
  unfold group_code. induction s as [|c s IH].
  - reflexivity.
  - rewrite sre_match_max. cbn [accepts lstrip].
    change (sre_match (MarkOpen :: lazy_code) (c :: s) mo mc)
      with (sre_match lazy_code (c :: s) (c :: s) mc).
    destruct (isspace c) eqn:E.
    + rewrite IH, lazy_match, (split_at_fence_space c s E).
      destruct (split_at_fence s) as [[a b]|]; [|reflexivity].
      unfold strip. cbn [lstrip]. rewrite E. reflexivity.
    + rewrite lazy_match.
      destruct (split_at_fence (c :: s)) as [[a b]|] eqn:S; [|reflexivity].
      unfold strip. destruct (split_at_fence_head _ _ _ _ S) as [->|[a' ->]].
      * reflexivity.
      * cbn [lstrip]. rewrite E. reflexivity.
Qed.

Lemma all_space_app a b : all_space (a ++ b) = all_space a && all_space b.
Proof. apply forallb_app. Qed.

Lemma lstrip_space_app w s : all_space w = true -> lstrip (w ++ s) = lstrip s.
Proof.
  induction w as [|c w IH]; [reflexivity|]. cbn [all_space forallb].
  intros H. apply andb_prop in H as [E H]. cbn [app lstrip]. rewrite E. exact (IH H).
Qed.

Lemma lstrip_all_space w : all_space w = true -> lstrip w = [].
Proof.
  intros H. rewrite <- (app_nil_r w). rewrite (lstrip_space_app w [] H). reflexivity.
Qed.

Lemma lstrip_app_keep a t :
  lstrip t = t -> lstrip (a ++ t) = lstrip a ++ t.
Proof.
  intros T. induction a as [|c a IH]; [exact T|].
  cbn [app lstrip]. destruct (isspace c); [exact IH | reflexivity].
Qed.

Lemma lstrip_idem s : lstrip (lstrip s) = lstrip s.
Proof.
  induction s as [|c s IH]; [reflexivity|]. cbn [lstrip].
  destruct (isspace c) eqn:E; [exact IH|]. cbn [lstrip]. rewrite E. reflexivity.
Qed.

Lemma rstrip_trailing s : exists w, s = rstrip s ++ w /\ all_space w = true.
Proof.
  induction s as [|c s (w & E & W)]; [exists []; split; reflexivity|].
  cbn [rstrip]. destruct (rstrip s) as [|x t] eqn:R.
  - destruct (isspace c) eqn:C.
    + exists (c :: w). cbn [app] in *. split; [congruence|].
      cbn [all_space forallb]. rewrite C. exact W.
    + exists w. split; [cbn [app] in *; congruence | exact W].
  - exists w. split; [cbn [app] in *; congruence | exact W].
Qed.

Lemma rstrip_idem s : rstrip (rstrip s) = rstrip s.
Proof.
  induction s as [|c s IH]; [reflexivity|]. cbn [rstrip].
  destruct (rstrip s) as [|x t] eqn:R.
  - destruct (isspace c) eqn:C; [reflexivity|]. cbn [rstrip]. rewrite C. reflexivity.
  - change (rstrip (c :: x :: t)) with
      (match rstrip (x :: t) with [] => if isspace c then [] else [c] | u => c :: u end).
    rewrite IH. reflexivity.
Qed.

Lemma lstrip_rstrip s : lstrip s = s -> lstrip (rstrip s) = rstrip s.
Proof.
  destruct s as [|c s]; [reflexivity|]. cbn [lstrip rstrip].
  destruct (isspace c) eqn:C.
  - intros H. assert (L : (length (lstrip s) <= length s)%nat).
    { clear. induction s as [|d s IH]; [reflexivity|]. cbn [lstrip].
      destruct (isspace d); cbn [length]; lia. }
    rewrite H in L. cbn [length] in L. lia.
  - intros _. destruct (rstrip s); cbn [lstrip]; rewrite C; reflexivity.
Qed.

Lemma strip_idem s : strip (strip s) = strip s.
Proof.
  unfold strip. rewrite (lstrip_rstrip (lstrip s) (lstrip_idem s)). apply rstrip_idem.
Qed.

Lemma split_at_fence_app s a b : split_at_fence s = Some (a, b) -> s = a ++ fence ++ b.
Proof.
  revert a. induction s as [|c s IH]; intros a; [discriminate|].
  rewrite split_at_fence_eq. destruct (starts_with fence (c :: s)) eqn:F.
  - intros [= <- <-].
    destruct s as [|d [|e s]]; cbn [fence starts_with] in F;
      rewrite ?andb_false_r in F; try discriminate F.
    apply andb_prop in F as [F1 F]. apply andb_prop in F as [F2 F].
    apply andb_prop in F as [F3 _].
    apply N.eqb_eq in F1, F2, F3. subst. reflexivity.
  - destruct (split_at_fence s) as [[a' b']|]; [|discriminate].
    intros [= <- <-]. cbn [app]. f_equal. apply IH. reflexivity.
Qed.

Lemma split_at_fence_tail c s :
  split_at_fence (c :: s) = None -> split_at_fence s = None.
Proof.
  rewrite split_at_fence_eq. destruct (starts_with fence (c :: s)); [discriminate|].
  destruct (split_at_fence s) as [[a b]|]; [discriminate | reflexivity].
Qed.

Lemma split_at_fence_skipn n s :
  split_at_fence s = None -> split_at_fence (skipn n s) = None.
Proof.
  revert s. induction n as [|n IH]; intros s H; [exact H|].
  destruct s as [|c s]; [exact H|]. cbn [skipn]. apply IH.
  exact (split_at_fence_tail c s H).
Qed.

(** ** The search *)

Lemma block_match s mo mc :
  sre_match powershell_block s mo mc =
  if starts_ignorecase opener s
  then sre_match group_code (skipn (length opener) s) mo mc
  else None.
Proof.
  change powershell_block
    with (List.map (fun c => One (Literal c)) opener ++ group_code).
  apply sre_match_literals.
Qed.

Lemma sre_search_eq code s :
  sre_search code s =
  match sre_match code s [] [] with
  | Some m => Some m
  | None => match s with _ :: s' => sre_search code s' | [] => None end
  end.
Proof. destruct s; reflexivity. Qed.

(** Where no fence stands after the place an opening marker would end, the
    search finds nothing, there or further on. *)
Lemma search_none s :
  split_at_fence (skipn (length opener) s) = None ->
  sre_search powershell_block s = None.
Proof.
  induction s as [|c s IH]; intros H.
  - reflexivity.
  - rewrite sre_search_eq, block_match, group_match, H.
    destruct (starts_ignorecase opener (c :: s)); apply IH;
      change (skipn (length opener) (c :: s)) with (skipn 12 s) in H;
      apply (split_at_fence_skipn 1) in H; rewrite skipn_skipn in H; exact H.
Qed.

Lemma split_at_opener_eq s :
  split_at_opener s =
  if starts_ignorecase opener s then Some ([], skipn (length opener) s)
  else
    match s with
    | c :: s' =>
        match split_at_opener s' with
        | Some (a, b) => Some (c :: a, b)
        | None => None
        end
    | [] => None
    end.
Proof. destruct s; reflexivity. Qed.

Lemma search_block s :
  sre_search powershell_block s =
  match split_at_opener s with
  | Some (_, after) => sre_match group_code after [] []
  | None => None
  end.
Proof.
  induction s as [|c s IH]; [reflexivity|].
  rewrite sre_search_eq, block_match, split_at_opener_eq.
  destruct (starts_ignorecase opener (c :: s)).
  - destruct (sre_match group_code _ [] []) eqn:G; [reflexivity|].
    rewrite group_match in G.
    destruct (split_at_fence (skipn (length opener) (c :: s))) as [[a b]|] eqn:S;
      [discriminate G|].
    apply search_none.
    change (skipn (length opener) (c :: s)) with (skipn 12 s) in S.
    apply (split_at_fence_skipn 1) in S. rewrite skipn_skipn in S. exact S.
  - rewrite IH. destruct (split_at_opener s) as [[a b]|]; reflexivity.
Qed.

(** ** The engine's extraction is the direct one *)

Lemma group1_strip after a b :
  split_at_fence after = Some (a, b) ->
  group1 (MatchState (lstrip after) (skipn (length (strip a)) (lstrip after)) b)
  = strip a.
Proof.
  intros S. apply split_at_fence_app in S. subst after.
  rewrite (lstrip_app_keep a (fence ++ b)) by reflexivity.
  unfold group1, strip. cbn [group_open group_close].
  destruct (rstrip_trailing (lstrip a)) as (w & E & _).
  set (k := rstrip (lstrip a)) in *. rewrite E at 1 2 3.
  rewrite <- !app_assoc, length_skipn, !length_app.
  replace (length k + (length w + (length fence + length b))
           - (length k + (length w + (length fence + length b)) - length k))%nat
    with (length k + 0)%nat by lia.
  rewrite firstn_app_2. cbn [firstn]. apply app_nil_r.
Qed.

Theorem extract_code_refines ai_code :
  extract_code ai_code = extract_code_direct ai_code.
Proof.
  unfold extract_code, extract_code_direct. rewrite search_block.
  destruct (split_at_opener ai_code) as [[pre after]|]; [|reflexivity].
  rewrite group_match.
  destruct (split_at_fence after) as [[a b]|] eqn:S; [|reflexivity].
  rewrite (group1_strip _ _ _ S). apply strip_idem.
Qed.

(** ** Where the first opening marker stands *)

Lemma starts_ignorecase_app p m r :
  starts_ignorecase p m = true -> starts_ignorecase p (m ++ r) = true.
Proof.
  revert m. induction p as [|c p IH]; intros m; [reflexivity|].
  destruct m as [|ch m]; [discriminate|]. cbn [app starts_ignorecase].
  intros H. apply andb_prop in H as [H1 H2]. rewrite H1. exact (IH _ H2).
Qed.

(** A marker that starts inside [x] and matches in [x ++ t] either lies in
    [x], or its end matches the start of [t]. *)
Lemma starts_ignorecase_split p x t :
  starts_ignorecase p (x ++ t) = true ->
  starts_ignorecase p x = true
  \/ starts_ignorecase (skipn (length x) p) t = true /\ (length x < length p)%nat.
Proof.
  revert x. induction p as [|c p IH]; intros x H; [left; reflexivity|].
  destruct x as [|ch x].
  - right. split; [exact H | cbn [length]; lia].
  - cbn [app starts_ignorecase] in H. apply andb_prop in H as [H1 H2].
    destruct (IH _ H2) as [L|[R1 R2]].
    + left. cbn [starts_ignorecase]. rewrite H1. exact L.
    + right. split; [exact R1 | cbn [length]; lia].
Qed.

Lemma opener_variant_shape m :
  opener_variant m = true ->
  exists m' c, m = BACKTICK :: BACKTICK :: BACKTICK :: m' ++ [c]
               /\ isspace c = false /\ length m = length opener.
Proof.
  unfold opener_variant. intros H. apply andb_prop in H as [H L].
  apply Nat.eqb_eq in L.
  do 13 (destruct m as [|? m]; [discriminate L|]).
  destruct m; [|discriminate L].
  cbn [opener fence py app List.map list_ascii_of_string starts_ignorecase] in H.
  repeat (apply andb_prop in H as [?H H]).
  repeat match goal with
  | B : literal_ignorecase _ ?x = true |- _ =>
      first [ change ((x =? BACKTICK) = true) in B; apply N.eqb_eq in B; subst x
            | revert B ]
  end.
  intros _ _ _ _ _ _ _ _ _ B. clear H.
  eexists [_; _; _; _; _; _; _; _; _], _. split; [reflexivity|]. split; [|reflexivity].
  cbv [literal_ignorecase lower_char] in B. cbn in B.
  rewrite !orb_false_r in B. apply orb_prop in B as [B|B]; apply N.eqb_eq in B;
    subst; reflexivity.
Qed.

(** No proper end of the opening marker matches at a fence: a marker cannot
    start in the text before another one and run into it. *)
Lemma opener_no_overlap k t :
  (0 < k < length opener)%nat ->
  starts_ignorecase (skipn k opener) (BACKTICK :: BACKTICK :: BACKTICK :: t) = false.
Proof.
  intros [K1 K2].
  do 13 (destruct k as [|k]; [first [lia | reflexivity]|]).
  cbn [length opener fence py app List.map list_ascii_of_string] in K2. lia.
Qed.

Lemma has_opener_cons c s :
  has_opener (c :: s) = false ->
  starts_ignorecase opener (c :: s) = false /\ has_opener s = false.
Proof.
  unfold has_opener. rewrite split_at_opener_eq.
  destruct (starts_ignorecase opener (c :: s)); [discriminate|].
  destruct (split_at_opener s) as [[a b]|]; [discriminate|]. split; reflexivity.
Qed.

Lemma split_at_opener_app pre m r :
  has_opener pre = false -> opener_variant m = true ->
  split_at_opener (pre ++ m ++ r) = Some (pre, r).
Proof.
  intros P M. destruct (opener_variant_shape m M) as (m' & c & E & _ & L).
  induction pre as [|x pre IH].
  - cbn [app]. rewrite split_at_opener_eq.
    unfold opener_variant in M. apply andb_prop in M as [M _].
    rewrite (starts_ignorecase_app _ _ r M).
    rewrite <- L, skipn_app, skipn_all, Nat.sub_diag. reflexivity.
  - apply has_opener_cons in P as [P1 P2].
    change ((x :: pre) ++ m ++ r) with (x :: (pre ++ m ++ r)).
    rewrite split_at_opener_eq.
    destruct (starts_ignorecase opener (x :: pre ++ m ++ r)) eqn:S.
    + exfalso.
      change (x :: pre ++ m ++ r) with ((x :: pre) ++ (m ++ r)) in S.
      apply starts_ignorecase_split in S as [S|[S K]]; [congruence|].
      rewrite E in S. cbn [app] in S.
      rewrite opener_no_overlap in S; [discriminate S|].
      split; [cbn [length]; lia | exact K].
    + rewrite (IH P2). reflexivity.
Qed.

(** ** Where the first fence stands *)

Lemma has_fence_cons c s :
  has_fence (c :: s) = false ->
  starts_with fence (c :: s) = false /\ has_fence s = false.
Proof.
  unfold has_fence. rewrite split_at_fence_eq.
  destruct (starts_with fence (c :: s)); [discriminate|].
  destruct (split_at_fence s) as [[a b]|]; [discriminate|]. split; reflexivity.
Qed.

Lemma last_is_cons c x y s : last_is c (x :: y :: s) = last_is c (y :: s).
Proof. reflexivity. Qed.

Lemma split_at_fence_first interior post :
  has_fence interior = false -> last_is BACKTICK interior = false ->
  split_at_fence (interior ++ fence ++ post) = Some (interior, post).
Proof.
  induction interior as [|x s IH]; intros F L.
  - reflexivity.
  - apply has_fence_cons in F as [F1 F2].
    change ((x :: s) ++ fence ++ post) with (x :: (s ++ fence ++ post)).
    rewrite split_at_fence_eq.
    assert (S : starts_with fence (x :: s ++ fence ++ post) = false).
    { destruct s as [|y [|z s]].
      - cbn [last_is] in L. cbn [app fence starts_with]. rewrite L. reflexivity.
      - cbn [last_is] in L. cbn [app fence starts_with]. rewrite L.
        apply andb_false_r.
      - exact F1. }
    rewrite S. rewrite IH; [reflexivity | exact F2 |].
    destruct s as [|y s]; [reflexivity | exact L].
Qed.

Lemma starts_opener_fence s :
  starts_ignorecase opener s = true -> starts_with fence s = true.
Proof.
  destruct s as [|a [|b [|c s]]];
    cbn [opener fence py app List.map list_ascii_of_string starts_ignorecase starts_with];
    rewrite ?backtick_literal, ?andb_false_r; try discriminate.
  intros H. apply andb_prop in H as [H1 H]. apply andb_prop in H as [H2 H].
  apply andb_prop in H as [H3 _]. rewrite H1, H2, H3. reflexivity.
Qed.

(** A text with no fence has no opening marker. *)
Lemma no_fence_no_opener s : has_fence s = false -> has_opener s = false.
Proof.
  unfold has_opener. induction s as [|c s IH]; intros F; [reflexivity|].
  apply has_fence_cons in F as [F1 F2]. rewrite split_at_opener_eq.
  destruct (starts_ignorecase opener (c :: s)) eqn:S.
  - apply starts_opener_fence in S. congruence.
  - specialize (IH F2). destruct (split_at_opener s) as [[a b]|];
      [discriminate IH | reflexivity].
Qed.

(** ** The two ways the extraction goes *)

(** No opening marker: the whole reply, stripped. *)
Lemma extract_fallback_no_opener raw :
  has_opener raw = false -> extract_code raw = strip raw.
Proof.
  rewrite extract_code_refines. unfold extract_code_direct, has_opener.
  destruct (split_at_opener raw) as [[a b]|]; [discriminate | reflexivity].
Qed.

(** An opening marker with no fence after it: the whole reply, stripped. *)
Lemma extract_fallback_unclosed pre m rest :
  has_opener pre = false -> opener_variant m = true -> has_fence rest = false ->
  extract_code (pre ++ m ++ rest) = strip (pre ++ m ++ rest).
Proof.
  intros P M F. rewrite extract_code_refines. unfold extract_code_direct.
  rewrite (split_at_opener_app pre m rest P M). unfold has_fence in F.
  destruct (split_at_fence rest) as [[a b]|]; [discriminate F | reflexivity].
Qed.

(** The first opening marker and the first fence after it: what stands
    between them, stripped. *)
Lemma extract_block pre m interior post :
  has_opener pre = false -> opener_variant m = true ->
  has_fence interior = false -> last_is BACKTICK interior = false ->
  extract_code (pre ++ m ++ interior ++ fence ++ post) = strip interior.
Proof.
  intros P M F L. rewrite extract_code_refines. unfold extract_code_direct.
  rewrite (split_at_opener_app pre m _ P M).
  rewrite (split_at_fence_first interior post F L). reflexivity.
Qed.

(** ** Stripping around a text that starts and ends in a visible character *)

Lemma rstrip_cons_visible c s : isspace c = false -> rstrip (c :: s) = c :: rstrip s.
Proof. intros H. cbn [rstrip]. rewrite H. destruct (rstrip s); reflexivity. Qed.

Lemma rstrip_app_visible a b : rstrip b <> [] -> rstrip (a ++ b) = a ++ rstrip b.
Proof.
  intros B. induction a as [|c a IH]; [reflexivity|].
  cbn [app rstrip]. rewrite IH. destruct (a ++ rstrip b) eqn:E; [|reflexivity].
  apply app_eq_nil in E as [_ E]. contradiction.
Qed.

Lemma rstrip_app_last a c b :
  isspace c = false -> rstrip (a ++ c :: b) = a ++ c :: rstrip b.
Proof.
  intros C. rewrite rstrip_app_visible; rewrite (rstrip_cons_visible c b C);
    [reflexivity | discriminate].
Qed.

Lemma rstrip_space_app s w : all_space w = true -> rstrip (s ++ w) = rstrip s.
Proof.
  intros W. induction s as [|c s IH].
  - apply rstrip_nil. exact W.
  - cbn [app rstrip]. rewrite IH. reflexivity.
Qed.

(** [x], between [a] and [b], starts with the visible [c] and ends with the
    visible [d]: stripping the whole strips [a] on the left and [b] on the
    right and keeps [x]. *)
Lemma strip_keep a c x d b :
  isspace c = false -> isspace d = false ->
  strip (a ++ (c :: x ++ [d]) ++ b) = lstrip a ++ (c :: x ++ [d]) ++ rstrip b.
Proof.
  intros C D. unfold strip.
  rewrite lstrip_app_keep by (cbn [app lstrip]; rewrite C; reflexivity).
  replace (lstrip a ++ (c :: x ++ [d]) ++ b)
    with ((lstrip a ++ c :: x) ++ d :: b)
    by (cbn [app]; rewrite <- !app_assoc; reflexivity).
  rewrite (rstrip_app_last _ d b D).
  cbn [app]. rewrite <- !app_assoc. reflexivity.
Qed.

Lemma strip_spaces_around w1 s w2 :
  all_space w1 = true -> all_space w2 = true -> strip (w1 ++ s ++ w2) = strip s.
Proof.
  intros W1 W2. unfold strip. rewrite (lstrip_space_app w1 _ W1).
  destruct (all_space s) eqn:S.
  - rewrite !lstrip_all_space; [reflexivity | exact S |].
    rewrite all_space_app, S, W2. reflexivity.
  - assert (K : forall t, lstrip (s ++ t) = lstrip s ++ t).
    { clear - S. induction s as [|c s IH]; [discriminate S|]. intros t.
      cbn [all_space forallb] in S. cbn [app lstrip].
      destruct (isspace c); [apply IH; exact S | reflexivity]. }
    rewrite K. apply rstrip_space_app. exact W2.
Qed.

(** ** [parse_and_save_ps1], by the outcome of the write *)

Lemma parse_and_save_ps1_written h ai_code title enc hd w :
  try_write h (file_name_of title) enc (ps1_body h ai_code hd) = WriteOk ->
  parse_and_save_ps1 h ai_code title enc hd w
  = Returned (file_name_of title, ps1_body h ai_code hd)
      (store (file_name_of title) (File enc (ps1_body h ai_code hd)) w).
Proof. intros H. unfold parse_and_save_ps1. rewrite H. reflexivity. Qed.

Lemma parse_and_save_ps1_returned h ai_code title enc hd w file_name ps1_code w' :
  parse_and_save_ps1 h ai_code title enc hd w = Returned (file_name, ps1_code) w' ->
  try_write h (file_name_of title) enc (ps1_body h ai_code hd) = WriteOk
  /\ file_name = file_name_of title
  /\ ps1_code = ps1_body h ai_code hd
  /\ w' = store file_name (File enc ps1_code) w.
Proof.
  unfold parse_and_save_ps1.
  destruct (try_write h (file_name_of title) enc (ps1_body h ai_code hd));
    [|discriminate|discriminate].
  intros [= <- <- <-]. repeat split; reflexivity.
Qed.

Lemma body_of_parse_and_save_ps1 h ai_code title enc hd w :
  body_of (parse_and_save_ps1 h ai_code title enc hd w)
  = match try_write h (file_name_of title) enc (ps1_body h ai_code hd) with
    | WriteOk => Some (ps1_body h ai_code hd)
    | _ => None
    end.
Proof.
  unfold parse_and_save_ps1.
  destruct (try_write h (file_name_of title) enc (ps1_body h ai_code hd)); reflexivity.
Qed.

Lemma saves_written h ai_code code title enc hd w :
  extract_code ai_code = code ->
  try_write h (file_name_of title) enc (with_header h hd code) = WriteOk ->
  saves h ai_code title enc hd w (with_header h hd code).
Proof.
  intros <- H. unfold saves. apply parse_and_save_ps1_written. exact H.
Qed.

(** * The claims *)

(** ** C2 *)

(** C2, as the claim states it, fails: the header literal opens with the line
    break that follows its opening quotes and with the rule line, so a body
    with the header starts with a line feed, and the banner line, which
    starts with a number sign, is not what it starts with. *)
Lemma banner_line_not_first :
  body_of (parse_and_save_ps1 sample_host sample_reply (py "demo") (py "utf-8")
             true blank)
  = Some (header (strftime sample_clock) ++ py "Get-Process")
  /\ head (header (strftime sample_clock) ++ py "Get-Process") = Some LF
  /\ head banner_line = Some 35
  /\ starts_with banner_line (header (strftime sample_clock) ++ py "Get-Process")
     = false
  /\ ~ banner_line `prefix_of` header (strftime sample_clock) ++ py "Get-Process".
Proof.
  split; [reflexivity|]. split; [reflexivity|]. split; [reflexivity|].
  split; [reflexivity|]. intros [k H]. vm_compute in H. discriminate H.
Qed.

(** C2 (amended): with [add_header] true the body [parse_and_save_ps1]
    returns is the header followed by the extracted code, so it starts with
    a line break, the rule line, and then the fixed banner line; with
    [add_header] false it is the extracted code with nothing before it.  The
    call returns whenever the host takes the file. *)
Theorem header_starts_body h raw title enc hd w :
  try_write h (file_name_of title) enc (ps1_body h raw hd) = WriteOk ->
  exists body,
    saves h raw title enc hd w body
    /\ if hd
       then body = header (strftime (clock h)) ++ extract_code raw
            /\ header_banner `prefix_of` body
            /\ body = [LF] ++ rule_line ++ [LF] ++ banner_line ++ [LF]
                      ++ skipn (length header_banner) body
       else body = extract_code raw.
Proof.
  intros H. exists (ps1_body h raw hd). split.
  - apply parse_and_save_ps1_written. exact H.
  - destruct hd; [|reflexivity]. split; [reflexivity|]. split.
    + eexists. unfold ps1_body, with_header, header. rewrite <- !app_assoc.
      reflexivity.
    + reflexivity.
Qed.

Lemma header_starts_body_sample :
  exists body,
    saves sample_host sample_reply (py "demo") (py "utf-8") true blank body
    /\ body = header (strftime sample_clock) ++ py "Get-Process"
    /\ header_banner `prefix_of` body.
Proof.
  destruct (header_starts_body sample_host sample_reply (py "demo") (py "utf-8")
              true blank eq_refl) as (body & S & E & P & _).
  exists body. split; [exact S|]. split; [|exact P].
  rewrite E. f_equal.
Defined.

(** ** C3 *)

Lemma get_process_fence_free ws1 ws2 :
  all_space ws1 = true -> all_space ws2 = true ->
  has_fence (ws1 ++ py "Get-Process" ++ ws2) = false
  /\ last_is BACKTICK (ws1 ++ py "Get-Process" ++ ws2) = false.
Proof.
  intros W1 W2.
  assert (V : forall w, all_space w = true ->
              has_fence w = false /\ last_is BACKTICK w = false).
  { clear. induction w as [|c w IH]; [split; reflexivity|].
    cbn [all_space forallb]. intros H. apply andb_prop in H as [C H].
    destruct (IH H) as [F L]. split.
    - unfold has_fence in *. rewrite (split_at_fence_space c w C).
      destruct (split_at_fence w) as [[a b]|]; [discriminate F | reflexivity].
    - destruct w as [|d w]; [|exact L]. cbn [last_is].
      apply isspace_not_backtick. exact C. }
  destruct (V ws2 W2) as [F2 L2].
  assert (G : has_fence (py "Get-Process" ++ ws2) = false
              /\ last_is BACKTICK (py "Get-Process" ++ ws2) = false).
  { split.
    - unfold has_fence in *. cbn [py list_ascii_of_string List.map app].
      do 11 (rewrite split_at_fence_eq; cbn [fence starts_with]).
      destruct (split_at_fence ws2) as [[a b]|]; [discriminate F2 | reflexivity].
    - destruct ws2 as [|d ws2]; [reflexivity | exact L2]. }
  destruct G as [G1 G2]. clear V F2 L2 W2.
  induction ws1 as [|c w IH]; [split; assumption|].
  cbn [all_space forallb] in W1. apply andb_prop in W1 as [C W1].
  destruct (IH W1) as [F L]. split.
  - unfold has_fence in *. cbn [app]. rewrite (split_at_fence_space c _ C).
    destruct (split_at_fence (w ++ py "Get-Process" ++ ws2)) as [[a b]|];
      [discriminate F | reflexivity].
  - cbn [app]. destruct (w ++ py "Get-Process" ++ ws2) as [|d t] eqn:E; [|exact L].
    destruct w; discriminate E.
Qed.

(** C3: a reply that holds one fenced block whose interior is "Get-Process",
    padded with any whitespace: after prose with no opening marker comes the
    marker (in any letter case), the padded interior and the fence, then
    anything.  The extracted code is "Get-Process", and that, after the header
    when one is asked for, is the body [parse_and_save_ps1] writes and
    returns. *)
Theorem get_process_block_extracted h raw pre m ws1 ws2 post title enc hd w :
  raw = pre ++ m ++ (ws1 ++ py "Get-Process" ++ ws2) ++ fence ++ post ->
  has_opener pre = false -> opener_variant m = true ->
  all_space ws1 = true -> all_space ws2 = true ->
  extract_code raw = py "Get-Process"
  /\ (try_write h (file_name_of title) enc (with_header h hd (py "Get-Process"))
      = WriteOk ->
      saves h raw title enc hd w (with_header h hd (py "Get-Process"))).
Proof.
  intros -> P M W1 W2.
  destruct (get_process_fence_free ws1 ws2 W1 W2) as [F L].
  assert (E : extract_code (pre ++ m ++ (ws1 ++ py "Get-Process" ++ ws2) ++ fence ++ post)
              = py "Get-Process").
  { rewrite (extract_block pre m _ post P M F L).
    rewrite (strip_spaces_around ws1 _ ws2 W1 W2). reflexivity. }
  split; [exact E|]. intros T. apply saves_written; assumption.
Qed.

Lemma get_process_block_extracted_sample :
  extract_code (py "Sure, here it is: " ++ py "```PowerShell" ++ [LF; SPACE]
                ++ py "Get-Process" ++ [SPACE; LF] ++ fence ++ py " Enjoy!")
  = py "Get-Process".
Proof.
  refine (proj1 (get_process_block_extracted sample_host _
                   (py "Sure, here it is: ") (py "```PowerShell") [LF; SPACE]
                   [SPACE; LF] (py " Enjoy!") (py "demo") (py "utf-8") false blank
                   _ eq_refl eq_refl eq_refl eq_refl)).
  reflexivity.
Defined.

(** ** C4 *)

(** C4: a reply with no fence anywhere is taken whole: the extracted code is
    the reply stripped at both ends, and that, after the header when one is
    asked for, is the body [parse_and_save_ps1] writes and returns. *)
Theorem no_fence_whole_reply h raw title enc hd w :
  has_fence raw = false ->
  extract_code raw = strip raw
  /\ (try_write h (file_name_of title) enc (with_header h hd (strip raw)) = WriteOk ->
      saves h raw title enc hd w (with_header h hd (strip raw))).
Proof.
  intros F.
  assert (E : extract_code raw = strip raw).
  { apply extract_fallback_no_opener, no_fence_no_opener. exact F. }
  split; [exact E|]. intros T. apply saves_written; assumption.
Qed.

Lemma no_fence_whole_reply_sample :
  extract_code ([SPACE; LF] ++ py "Get-Process" ++ [LF]) = py "Get-Process"
  /\ saves sample_host ([SPACE; LF] ++ py "Get-Process" ++ [LF]) (py "demo")
       (py "utf-8") false blank (py "Get-Process").
Proof.
  destruct (no_fence_whole_reply sample_host ([SPACE; LF] ++ py "Get-Process" ++ [LF])
              (py "demo") (py "utf-8") false blank eq_refl) as [E S].
  split; [exact E | exact (S eq_refl)].
Defined.

(** ** C6 *)

(** C6: a block opened by the marker in capitals is recognised: where the
    prose before holds no opening marker and the interior runs to the first
    fence after the marker, the extracted code is the interior stripped, and
    that, after the header when one is asked for, is the body
    [parse_and_save_ps1] writes and returns. *)
Theorem upper_case_marker_recognised h raw pre interior post title enc hd w :
  raw = pre ++ upper_opener ++ interior ++ fence ++ post ->
  has_opener pre = false ->
  has_fence interior = false -> last_is BACKTICK interior = false ->
  extract_code raw = strip interior
  /\ (try_write h (file_name_of title) enc (with_header h hd (strip interior))
      = WriteOk ->
      saves h raw title enc hd w (with_header h hd (strip interior))).
Proof.
  intros -> P F L.
  assert (E : extract_code (pre ++ upper_opener ++ interior ++ fence ++ post)
              = strip interior).
  { apply extract_block; [exact P | reflexivity | exact F | exact L]. }
  split; [exact E|]. intros T. apply saves_written; assumption.
Qed.

Lemma upper_case_marker_recognised_sample :
  extract_code (py "Result: ```POWERSHELL" ++ [LF] ++ py "Get-Service | Sort-Object Name"
                ++ [LF] ++ py "``` (done)")
  = py "Get-Service | Sort-Object Name".
Proof.
  refine (proj1 (upper_case_marker_recognised sample_host _ (py "Result: ")
                   ([LF] ++ py "Get-Service | Sort-Object Name" ++ [LF])
                   (py " (done)") (py "demo") (py "utf-8") false blank
                   _ eq_refl eq_refl eq_refl)).
  reflexivity.
Defined.

(** ** C9 *)

Lemma opener_variant_visible m :
  opener_variant m = true ->
  exists c x d, m = c :: x ++ [d] /\ isspace c = false /\ isspace d = false.
Proof.
  intros M. destruct (opener_variant_shape m M) as (m' & d & E & D & _).
  exists BACKTICK, (BACKTICK :: BACKTICK :: m'), d.
  split; [exact E|]. split; [reflexivity | exact D].
Qed.

(** C9: an opening marker with no fence after it, after prose with no
    opening marker, matches nothing: the extracted code is the whole reply
    stripped at both ends, the marker still in it, and that, after the header
    when one is asked for, is the body [parse_and_save_ps1] writes and
    returns. *)
Theorem unclosed_marker_falls_back h raw pre m rest title enc hd w :
  raw = pre ++ m ++ rest ->
  has_opener pre = false -> opener_variant m = true -> has_fence rest = false ->
  extract_code raw = strip raw
  /\ strip raw = lstrip pre ++ m ++ rstrip rest
  /\ (try_write h (file_name_of title) enc (with_header h hd (strip raw)) = WriteOk ->
      saves h raw title enc hd w (with_header h hd (strip raw))).
Proof.
  intros -> P M F.
  assert (E : extract_code (pre ++ m ++ rest) = strip (pre ++ m ++ rest)).
  { apply extract_fallback_unclosed; assumption. }
  split; [exact E|]. split.
  - destruct (opener_variant_visible m M) as (c & x & d & -> & C & D).
    apply strip_keep; assumption.
  - intros T. apply saves_written; assumption.
Qed.

Lemma unclosed_marker_falls_back_sample :
  extract_code ([SPACE] ++ py "Try: ```powershell" ++ [LF] ++ py "Get-Process" ++ [LF])
  = py "Try: ```powershell" ++ [LF] ++ py "Get-Process".
Proof.
  refine (eq_trans
            (proj1 (unclosed_marker_falls_back sample_host _ ([SPACE] ++ py "Try: ")
                      opener ([LF] ++ py "Get-Process" ++ [LF]) (py "demo")
                      (py "utf-8") false blank _ eq_refl eq_refl eq_refl))
            _);
    reflexivity.
Defined.

(** ** C10 *)

(** C10: a block between bare fences, in a reply where no fence is followed
    by the language tag, is not recognised: the extracted code is the whole
    reply stripped at both ends, both fences in it, and that, after the header
    when one is asked for, is the body [parse_and_save_ps1] writes and
    returns. *)
Theorem bare_fences_fall_back h raw pre interior post title enc hd w :
  raw = pre ++ fence ++ interior ++ fence ++ post ->
  has_opener raw = false ->
  extract_code raw = strip raw
  /\ strip raw = lstrip pre ++ fence ++ interior ++ fence ++ rstrip post
  /\ (try_write h (file_name_of title) enc (with_header h hd (strip raw)) = WriteOk ->
      saves h raw title enc hd w (with_header h hd (strip raw))).
Proof.
  intros R P.
  assert (E : extract_code raw = strip raw).
  { apply extract_fallback_no_opener. exact P. }
  split; [exact E|]. split.
  - rewrite R.
    replace (pre ++ fence ++ interior ++ fence ++ post)
      with (pre ++ (BACKTICK :: ([BACKTICK; BACKTICK] ++ interior ++ [BACKTICK; BACKTICK])
                      ++ [BACKTICK]) ++ post)
      by (cbn [fence app]; rewrite <- !app_assoc; reflexivity).
    rewrite strip_keep by reflexivity.
    cbn [fence app]. rewrite <- !app_assoc. reflexivity.
  - intros T. apply saves_written; assumption.
Qed.

Lemma bare_fences_fall_back_sample :
  extract_code ([LF] ++ fence ++ [LF] ++ py "Get-Process" ++ [LF] ++ fence ++ [LF])
  = fence ++ [LF] ++ py "Get-Process" ++ [LF] ++ fence.
Proof.
  refine (eq_trans
            (proj1 (bare_fences_fall_back sample_host _ [LF]
                      ([LF] ++ py "Get-Process" ++ [LF]) [LF] (py "demo")
                      (py "utf-8") false blank eq_refl eq_refl))
            _);
    reflexivity.
Defined.

(** ** C5 *)

(** C5: when the model call raises, whatever the error, [send_message_to_model]
    shows the error and returns [None], with no text of a reply;
    [generate_powershell_command] hands that on; and [main] ends having shown
    error messages only, and with the files as they were: [parse_and_save_ps1]
    is not called. *)
Theorem api_failure_writes_nothing h r w e :
  send_message h (model_name r)
    (GenerationConfig (temperature r) (8 # 10) 40 (py "text/plain") (max_tokens r))
    (build_prompt r) = ApiRaise e ->
  send_message_to_model h (build_prompt r) (model_name r) (temperature r)
    (max_tokens r) w
  = (None, show (StError (error_communicating ++ e)) w)
  /\ generate_powershell_command h r w
     = (None, show (StError (error_communicating ++ e)) w)
  /\ exists shown,
       main h r w = Returned tt (MkWorld (files w) (page w ++ shown))
       /\ forallb is_st_error shown = true.
Proof.
  intros H.
  assert (S : send_message_to_model h (build_prompt r) (model_name r)
                (temperature r) (max_tokens r) w
              = (None, show (StError (error_communicating ++ e)) w)).
  { unfold send_message_to_model. rewrite H. reflexivity. }
  split; [exact S|]. split; [exact S|].
  unfold main. destruct (prompt_base r) as [|c d].
  - exists [StError please_enter]. split; reflexivity.
  - unfold generate_powershell_command. rewrite S.
    exists [StError (error_communicating ++ e); StError error_generating].
    split; [|reflexivity]. unfold show. cbn [files page].
    rewrite <- app_assoc. reflexivity.
Qed.

Lemma api_failure_writes_nothing_sample :
  exists shown,
    main offline_host sample_request blank
    = Returned tt (MkWorld (files blank) (page blank ++ shown))
    /\ forallb is_st_error shown = true.
Proof.
  exact (proj2 (proj2 (api_failure_writes_nothing offline_host sample_request blank
                         (py "503 Service Unavailable") eq_refl))).
Defined.

(** ** C7 *)

(** C7: two requests that agree on the description, the detail level, the
    script type, the security level, the prompt detail, the log level and the
    error handling choice get the same prompt, character for character,
    whatever their model, generation settings, encoding and header choice. *)
Theorem prompt_determined_by_request r1 r2 :
  prompt_base r1 = prompt_base r2 ->
  detail_level r1 = detail_level r2 ->
  script_type r1 = script_type r2 ->
  security_level r1 = security_level r2 ->
  prompt_detail r1 = prompt_detail r2 ->
  log_level r1 = log_level r2 ->
  add_error_handling r1 = add_error_handling r2 ->
  build_prompt r1 = build_prompt r2.
Proof.
  intros H1 H2 H3 H4 H5 H6 H7. unfold build_prompt.
  rewrite H1, H2, H3, H4, H5, H6, H7. reflexivity.
Qed.

Lemma prompt_determined_by_request_sample :
  build_prompt sample_request = build_prompt sample_request'.
Proof.
  exact (prompt_determined_by_request sample_request sample_request'
           eq_refl eq_refl eq_refl eq_refl eq_refl eq_refl eq_refl).
Defined.

(** ** C8 *)


(** Text mode on a POSIX system writes the text as it is. *)
Lemma translate_newlines_posix s : translate_newlines posix s = s.
Proof.
  induction s as [|c s IH]; [reflexivity|].
  unfold translate_newlines in *. cbn [flat_map]. rewrite IH.
  destruct (c =? LF) eqn:E; [|reflexivity].
  apply N.eqb_eq in E. subst c. reflexivity.
Qed.

(** A text without a line feed is written as it is everywhere. *)
Lemma translate_newlines_no_lf o s : LF ∉ s -> translate_newlines o s = s.
Proof.
  induction s as [|c s IH]; [reflexivity|].
  intros [D Hs]%not_elem_of_cons.
  unfold translate_newlines in *. cbn [flat_map]. rewrite (IH Hs).
  destruct (c =? LF) eqn:E; [|reflexivity].
  apply N.eqb_eq in E. congruence.
Qed.

Lemma translate_newlines_nt_cons c s :
  translate_newlines nt (c :: s)
  = if c =? LF then CR :: LF :: translate_newlines nt s
    else c :: translate_newlines nt s.
Proof. unfold translate_newlines. cbn [flat_map]. destruct (c =? LF); reflexivity. Qed.

Lemma utf8_encode_cons c s :
  utf8_encode (c :: s)
  = match utf8_char c, utf8_encode s with
    | Some b, Some bs => Some (b ++ bs)
    | _, _ => None
    end.
Proof. reflexivity. Qed.

(** On Windows the file is never shorter than the download. *)
Lemma utf8_encode_nt_le s : forall b k,
  utf8_encode s = Some b ->
  utf8_encode (translate_newlines nt s) = Some k ->
  (length b <= length k)%nat.
Proof.
  induction s as [|c s IH]; intros b k B K.
  - cbn in B, K. injection B as <-. injection K as <-. reflexivity.
  - rewrite translate_newlines_nt_cons in K. rewrite utf8_encode_cons in B.
    destruct (utf8_char c) as [bc|] eqn:C; [|discriminate].
    destruct (utf8_encode s) as [bs|] eqn:S; [|discriminate].
    injection B as <-.
    destruct (c =? LF) eqn:E.
    + apply N.eqb_eq in E. subst c. injection C as <-.
      rewrite !utf8_encode_cons in K.
      destruct (utf8_encode (translate_newlines nt s)) as [ks|]; [|discriminate].
      injection K as <-. specialize (IH bs ks eq_refl eq_refl).
      cbn. lia.
    + rewrite utf8_encode_cons, C in K.
      destruct (utf8_encode (translate_newlines nt s)) as [ks|]; [|discriminate].
      injection K as <-. specialize (IH bs ks eq_refl eq_refl).
      rewrite !length_app. lia.
Qed.

(** It is longer as soon as the text has a line feed. *)
Lemma utf8_encode_nt_lt s : forall b k,
  LF ∈ s ->
  utf8_encode s = Some b ->
  utf8_encode (translate_newlines nt s) = Some k ->
  (length b < length k)%nat.
Proof.
  induction s as [|c s IH]; intros b k I B K.
  - apply elem_of_nil in I. destruct I.
  - rewrite translate_newlines_nt_cons in K. rewrite utf8_encode_cons in B.
    destruct (utf8_char c) as [bc|] eqn:C; [|discriminate].
    destruct (utf8_encode s) as [bs|] eqn:S; [|discriminate].
    injection B as <-.
    destruct (c =? LF) eqn:E.
    + apply N.eqb_eq in E. subst c. injection C as <-.
      rewrite !utf8_encode_cons in K.
      destruct (utf8_encode (translate_newlines nt s)) as [ks|] eqn:KS; [|discriminate].
      injection K as <-. pose proof (utf8_encode_nt_le s bs ks S KS).
      cbn. lia.
    + apply N.eqb_neq in E. apply elem_of_cons in I as [I|I]; [congruence|].
      rewrite utf8_encode_cons, C in K.
      destruct (utf8_encode (translate_newlines nt s)) as [ks|]; [|discriminate].
      injection K as <-. specialize (IH bs ks I eq_refl eq_refl).
      rewrite !length_app. lia.
Qed.

(** A file written under utf-8 has the bytes of the text's own UTF-8
    encoding exactly when text mode changes nothing: on a POSIX system, or
    for a text without a line feed. *)
Lemma file_bytes_utf8 o text bytes :
  utf8_encode text = Some bytes ->
  file_bytes o (File (py "utf-8") text) = Some bytes
  <-> o = posix \/ LF ∉ text.
Proof.
  intros B. unfold file_bytes. cbn [file_encoding file_text].
  rewrite bool_decide_eq_true_2 by reflexivity. split.
  - intros K. destruct o; [left; reflexivity|]. right. intros I.
    pose proof (utf8_encode_nt_lt text bytes bytes I B K). lia.
  - intros [->|I].
    + rewrite translate_newlines_posix. exact B.
    + rewrite translate_newlines_no_lf by exact I. exact B.
Qed.




(** * Worked examples *)

(** The lazy group stops at the first fence after the marker, so backticks at
    the end of the interior move the end of the group. *)
Example lazy_group_stops_early :
  extract_code (py "```powershell a`````b``` ") = py "a".
Proof. vm_compute. reflexivity. Qed.

(** Two backticks after a blank are part of the interior. *)
Example backticks_inside :
  extract_code (py "```powershell a`` ``` ") = py "a``".
Proof. vm_compute. reflexivity. Qed.

(** The long s (U+017F) stands for the s of the tag, and the no-break space
    (U+00A0) and the line separator (U+2028) are whitespace. *)
Example unicode_marker_and_padding :
  extract_code (py "```power" ++ [383] ++ py "hell" ++ [160; 8232]
                ++ py "Get-Date" ++ [160] ++ fence)
  = py "Get-Date".
Proof. vm_compute. reflexivity. Qed.

(** A second marker closes the first block when no other fence stands
    between them. *)
Example second_marker_closes :
  extract_code (py "```powershell a ```powershell b") = py "a".
Proof. vm_compute. reflexivity. Qed.

(** The header for the sample clock. *)
Example header_sample :
  header (strftime sample_clock)
  = [LF] ++ rule_line ++ [LF] ++ banner_line ++ [LF]
    ++ py "# Date: 2025-01-02 03:04:05" ++ [LF]
    ++ py "# Author: Elias Andrade AKA Chaos4455" ++ [LF]
    ++ rule_line ++ [LF] ++ py "    ".
Proof. vm_compute. reflexivity. Qed.

(** A whole run: the sample request on the sample host ends with the download
    of the file just written. *)
Example main_sample :
  exists w',
    main sample_host sample_request blank = Returned tt w'
    /\ last (page w')
       = Some (StDownloadButton download_label
                 (header (strftime sample_clock) ++ py "Get-Process")
                 (py "command_list_all_running_processes_tha.ps1")
                 (py "application/powershell"))
    /\ files w' !! py "command_list_all_running_processes_tha.ps1"
       = Some (File (py "utf-8") (header (strftime sample_clock) ++ py "Get-Process")).
Proof.
  eexists. split; [reflexivity|]. split; [reflexivity|].
  cbn [show store files]. apply lookup_insert_eq.
Qed.

(** * Further properties of the extraction *)

Lemma lstrip_leading s : exists w, s = w ++ lstrip s /\ all_space w = true.
Proof.
  induction s as [|c s (w & E & W)]; [exists []; split; reflexivity|].
  cbn [lstrip]. destruct (isspace c) eqn:C.
  - exists (c :: w). split; [cbn [app]; congruence|].
    cbn [all_space forallb]. rewrite C. exact W.
  - exists []. split; reflexivity.
Qed.

Lemma strip_decompose s :
  exists w1 w2, s = w1 ++ strip s ++ w2 /\ all_space w1 = true /\ all_space w2 = true.
Proof.
  destruct (lstrip_leading s) as (w1 & E1 & W1).
  destruct (rstrip_trailing (lstrip s)) as (w2 & E2 & W2).
  exists w1, w2. unfold strip. rewrite <- E2. repeat split; assumption.
Qed.

Lemma starts_ignorecase_firstn p s :
  starts_ignorecase p s = true ->
  starts_ignorecase p (firstn (length p) s) = true
  /\ length (firstn (length p) s) = length p.
Proof.
  revert s. induction p as [|c p IH]; intros s H; [split; reflexivity|].
  destruct s as [|ch s]; [discriminate H|].
  cbn [starts_ignorecase] in H. apply andb_prop in H as [H1 H2].
  destruct (IH _ H2) as [I1 I2]. cbn [length firstn starts_ignorecase].
  rewrite H1, I1, I2. split; reflexivity.
Qed.

Lemma split_at_opener_inv s pre after :
  split_at_opener s = Some (pre, after) ->
  exists m, s = pre ++ m ++ after /\ opener_variant m = true.
Proof.
  revert pre after. induction s as [|c s IH]; intros pre after.
  - rewrite split_at_opener_eq. discriminate.
  - rewrite split_at_opener_eq. destruct (starts_ignorecase opener (c :: s)) eqn:S.
    + intros [= <- <-]. exists (firstn (length opener) (c :: s)).
      destruct (starts_ignorecase_firstn _ _ S) as [S1 S2]. split.
      * symmetry. exact (firstn_skipn (length opener) (c :: s)).
      * unfold opener_variant. rewrite S1, S2, Nat.eqb_refl. reflexivity.
    + destruct (split_at_opener s) as [[a b]|] eqn:R; [|discriminate].
      intros [= <- <-]. destruct (IH a b eq_refl) as (m & E & M).
      exists m. split; [cbn [app]; congruence | exact M].
Qed.

Lemma has_fence_app y z : has_fence (y ++ fence ++ z) = true.
Proof.
  unfold has_fence. induction y as [|c y IH]; [reflexivity|].
  cbn [app]. rewrite split_at_fence_eq.
  destruct (starts_with fence (c :: y ++ fence ++ z)); [reflexivity|].
  destruct (split_at_fence (y ++ fence ++ z)) as [[a b]|]; [reflexivity | discriminate IH].
Qed.

Lemma search_some x m y z :
  opener_variant m = true ->
  is_Some (sre_search powershell_block (x ++ m ++ y ++ fence ++ z)).
Proof.
  intros M. induction x as [|c x IH].
  - cbn [app]. rewrite sre_search_eq, block_match.
    destruct (opener_variant_shape m M) as (_ & _ & _ & _ & L).
    unfold opener_variant in M. apply andb_prop in M as [M _].
    rewrite (starts_ignorecase_app _ _ (y ++ fence ++ z) M).
    replace (skipn (length opener) (m ++ y ++ fence ++ z)) with (y ++ fence ++ z)
      by (rewrite <- L, skipn_app, skipn_all, Nat.sub_diag; reflexivity).
    rewrite group_match. pose proof (has_fence_app y z) as F. unfold has_fence in F.
    destruct (split_at_fence (y ++ fence ++ z)) as [[a b]|]; [|discriminate F].
    eexists. reflexivity.
  - cbn [app]. rewrite sre_search_eq.
    destruct (sre_match powershell_block _ [] []); [eexists; reflexivity | exact IH].
Qed.

Lemma search_some_inv s r :
  sre_search powershell_block s = Some r ->
  exists x m y z, s = x ++ m ++ y ++ fence ++ z /\ opener_variant m = true.
Proof.
  rewrite search_block.
  destruct (split_at_opener s) as [[pre after]|] eqn:O; [|discriminate].
  rewrite group_match.
  destruct (split_at_fence after) as [[a b]|] eqn:F; [|discriminate].
  intros _. destruct (split_at_opener_inv _ _ _ O) as (m & E & M).
  apply split_at_fence_app in F. exists pre, m, a, b. subst. split; [reflexivity | exact M].
Qed.

Lemma starts_with_app p s w : starts_with p s = true -> starts_with p (s ++ w) = true.
Proof.
  revert s. induction p as [|c p IH]; intros s; [reflexivity|].
  destruct s as [|ch s]; [discriminate|]. cbn [app starts_with].
  intros H. apply andb_prop in H as [H1 H2]. rewrite H1. exact (IH _ H2).
Qed.

Lemma has_fence_cons_intro c s :
  starts_with fence (c :: s) = false -> has_fence s = false ->
  has_fence (c :: s) = false.
Proof.
  unfold has_fence. intros S F. rewrite split_at_fence_eq, S.
  destruct (split_at_fence s) as [[a b]|]; [discriminate F | reflexivity].
Qed.

Lemma has_fence_prefix x w : has_fence (x ++ w) = false -> has_fence x = false.
Proof.
  induction x as [|c x IH]; [reflexivity|]. cbn [app]. intros H.
  apply has_fence_cons in H as [H1 H2]. apply has_fence_cons_intro; [|exact (IH H2)].
  destruct (starts_with fence (c :: x)) eqn:S; [|reflexivity].
  apply (starts_with_app _ _ w) in S. cbn [app] in S. congruence.
Qed.

Lemma has_fence_suffix w x : has_fence (w ++ x) = false -> has_fence x = false.
Proof.
  induction w as [|c w IH]; [exact (fun H => H)|]. cbn [app]. intros H.
  apply has_fence_cons in H as [_ H]. exact (IH H).
Qed.

Lemma split_at_fence_before s a b :
  split_at_fence s = Some (a, b) -> has_fence a = false.
Proof.
  revert a b. induction s as [|c s IH]; intros a b.
  - rewrite split_at_fence_eq. discriminate.
  - rewrite split_at_fence_eq. destruct (starts_with fence (c :: s)) eqn:S.
    + intros [= <- _]. reflexivity.
    + destruct (split_at_fence s) as [[a' b']|] eqn:R; [|discriminate].
      intros [= <- <-]. apply has_fence_cons_intro; [|exact (IH a' b' eq_refl)].
      destruct (starts_with fence (c :: a')) eqn:T; [|reflexivity].
      apply split_at_fence_app in R. subst s.
      apply (starts_with_app _ _ (fence ++ b')) in T. cbn [app] in T. congruence.
Qed.

Lemma has_fence_strip s : has_fence s = false -> has_fence (strip s) = false.
Proof.
  intros H. destruct (strip_decompose s) as (w1 & w2 & E & _ & _).
  rewrite E in H. apply has_fence_suffix, has_fence_prefix in H. exact H.
Qed.

(** The search fails on the stripped reply when it fails on the reply. *)
Lemma search_none_strip raw :
  sre_search powershell_block raw = None ->
  sre_search powershell_block (strip raw) = None.
Proof.
  intros H. destruct (sre_search powershell_block (strip raw)) as [r|] eqn:S;
    [|reflexivity].
  destruct (search_some_inv _ _ S) as (x & m & y & z & E & M).
  destruct (strip_decompose raw) as (w1 & w2 & D & _ & _).
  assert (K : is_Some (sre_search powershell_block raw)).
  { rewrite D, E.
    replace (w1 ++ (x ++ m ++ y ++ fence ++ z) ++ w2)
      with ((w1 ++ x) ++ m ++ y ++ fence ++ (z ++ w2))
      by (rewrite <- !app_assoc; reflexivity).
    apply search_some. exact M. }
  rewrite H in K. destruct K as [? K]. discriminate K.
Qed.

(** What the extraction gives, by the outcome of the search: on a match the
    stripped text between the first marker and the first fence after it, a
    text with no fence; on none the stripped reply. *)
Lemma extract_code_cases raw :
  (exists pre m a b,
      raw = pre ++ m ++ a ++ fence ++ b /\ opener_variant m = true
      /\ has_fence a = false /\ extract_code raw = strip a)
  \/ (sre_search powershell_block raw = None /\ extract_code raw = strip raw).
Proof.
  unfold extract_code. rewrite search_block.
  destruct (split_at_opener raw) as [[pre after]|] eqn:O; [|right; split; reflexivity].
  rewrite group_match.
  destruct (split_at_fence after) as [[a b]|] eqn:F; [|right; split; reflexivity].
  left. destruct (split_at_opener_inv _ _ _ O) as (m & E & M).
  exists pre, m, a, b. rewrite (group1_strip _ _ _ F), strip_idem.
  pose proof (split_at_fence_before _ _ _ F) as NF.
  apply split_at_fence_app in F. subst. repeat split; assumption.
Qed.

Lemma extract_code_no_match raw :
  sre_search powershell_block raw = None -> extract_code raw = strip raw.
Proof. intros H. unfold extract_code. rewrite H. reflexivity. Qed.

(** X1: the extraction of [parse_and_save_ps1], run by the backtracking
    engine on the compiled pattern, is the direct one: the text between the
    first opening marker (in any letter case) and the first fence after it,
    stripped; the whole reply, stripped, when there is no marker or no fence
    after the first one. *)
Theorem extraction_is_first_block raw :
  extract_code raw = extract_code_direct raw.
Proof. apply extract_code_refines. Qed.

(** X2: the pattern matches somewhere in the reply exactly when an opening
    marker, in some letter case, is followed anywhere later by a fence. *)
Theorem pattern_matches_iff_marker_then_fence raw :
  is_Some (sre_search powershell_block raw)
  <-> exists x m y z, raw = x ++ m ++ y ++ fence ++ z /\ opener_variant m = true.
Proof.
  split.
  - intros [r H]. exact (search_some_inv _ _ H).
  - intros (x & m & y & z & -> & M). apply search_some. exact M.
Qed.

(** X3: the extracted code is a part of the reply, in one piece: the
    extraction drops text before and after it and changes no character. *)
Theorem extracted_code_is_part_of_reply raw :
  exists before after, raw = before ++ extract_code raw ++ after.
Proof.
  destruct (extract_code_cases raw) as [(pre & m & a & b & E & _ & _ & ->)|[_ ->]].
  - destruct (strip_decompose a) as (w1 & w2 & D & _ & _).
    exists (pre ++ m ++ w1), (w2 ++ fence ++ b). rewrite E. rewrite D at 1.
    rewrite <- !app_assoc. reflexivity.
  - destruct (strip_decompose raw) as (w1 & w2 & D & _ & _).
    exists w1, w2. exact D.
Qed.

(** X5: extracting from the extracted code gives the extracted code again. *)
Theorem extraction_idempotent raw :
  extract_code (extract_code raw) = extract_code raw.
Proof.
  destruct (extract_code_cases raw) as [(pre & m & a & b & _ & _ & F & ->)|[S ->]].
  - rewrite extract_fallback_no_opener, strip_idem; [reflexivity|].
    apply no_fence_no_opener, has_fence_strip. exact F.
  - rewrite (extract_code_no_match _ (search_none_strip raw S)). apply strip_idem.
Qed.

(** X6: when the extracted code holds a fence, the pattern matched nowhere
    and the code is the whole reply, stripped: the code of a matched block
    never holds a fence. *)
Theorem fence_in_code_means_fallback raw :
  has_fence (extract_code raw) = true ->
  sre_search powershell_block raw = None /\ extract_code raw = strip raw.
Proof.
  destruct (extract_code_cases raw) as [(pre & m & a & b & _ & _ & F & E)|[S E]].
  - rewrite E, (has_fence_strip a F). discriminate.
  - intros _. split; assumption.
Qed.

Lemma fence_in_code_means_fallback_sample :
  extract_code (py "Use ```" ++ [LF] ++ py "Get-Date" ++ [LF] ++ py "``` ")
  = strip (py "Use ```" ++ [LF] ++ py "Get-Date" ++ [LF] ++ py "``` ").
Proof.
  exact (proj2 (fence_in_code_means_fallback
                  (py "Use ```" ++ [LF] ++ py "Get-Date" ++ [LF] ++ py "``` ")
                  eq_refl)).
Defined.

Lemma all_space_no_fence w : all_space w = true -> has_fence w = false.
Proof.
  induction w as [|c w IH]; [reflexivity|]. cbn [all_space forallb].
  intros H. apply andb_prop in H as [C W]. apply has_fence_cons_intro.
  - apply starts_with_fence_space. exact C.
  - exact (IH W).
Qed.

(** X7: a reply that is nothing but whitespace gives the empty code. *)
Theorem blank_reply_gives_empty_code raw :
  all_space raw = true -> extract_code raw = [].
Proof.
  intros W. rewrite extract_fallback_no_opener.
  - unfold strip. rewrite (lstrip_all_space raw W). reflexivity.
  - apply no_fence_no_opener, all_space_no_fence. exact W.
Qed.

Lemma blank_reply_gives_empty_code_sample :
  extract_code [SPACE; LF; 160; LF] = [].
Proof. exact (blank_reply_gives_empty_code [SPACE; LF; 160; LF] eq_refl). Defined.

Lemma lstrip_fixed_head s c : lstrip s = s -> head s = Some c -> isspace c = false.
Proof.
  destruct s as [|x s]; [discriminate|]. cbn [lstrip head]. intros L [= ->].
  destruct (isspace c) eqn:C; [|reflexivity].
  assert (K : (length (lstrip s) <= length s)%nat).
  { clear. induction s as [|d s IH]; [reflexivity|]. cbn [lstrip].
    destruct (isspace d); cbn [length]; lia. }
  rewrite L in K. cbn [length] in K. lia.
Qed.

Lemma rstrip_fixed_last s c : rstrip s = s -> last s = Some c -> isspace c = false.
Proof.
  induction s as [|x s IH]; [discriminate|].
  destruct s as [|y t].
  - cbn [rstrip last]. intros R [= ->].
    destruct (isspace c); [discriminate R | reflexivity].
  - intros R L. apply IH.
    + change (rstrip (x :: y :: t)) with
        (match rstrip (y :: t) with
         | [] => if isspace x then [] else [x]
         | u => x :: u
         end) in R.
      destruct (rstrip (y :: t)) as [|u us].
      * destruct (isspace x); discriminate R.
      * congruence.
    + exact L.
Qed.

Lemma strip_fixed_ends s :
  lstrip (strip s) = strip s /\ rstrip (strip s) = strip s.
Proof.
  unfold strip. split.
  - apply lstrip_rstrip, lstrip_idem.
  - apply rstrip_idem.
Qed.

(** X4: the extracted code neither starts nor ends with whitespace:
    stripping it again changes nothing, and its first and its last character,
    when it has any, are no whitespace. *)
Theorem extracted_code_has_visible_ends raw :
  strip (extract_code raw) = extract_code raw
  /\ (forall c, head (extract_code raw) = Some c -> isspace c = false)
  /\ (forall c, last (extract_code raw) = Some c -> isspace c = false).
Proof.
  assert (E : exists s, extract_code raw = strip s).
  { unfold extract_code. destruct (sre_search powershell_block raw); eexists; reflexivity. }
  destruct E as [s ->]. destruct (strip_fixed_ends s) as [L R].
  split; [apply strip_idem|]. split; intros c H.
  - exact (lstrip_fixed_head _ c L H).
  - exact (rstrip_fixed_last _ c R H).
Qed.

(** * Further properties of the short title and the file name *)

(** One character of the short title: a space becomes an underscore, a
    capital its small letter. *)
Lemma short_title_map d :
  short_title d
  = List.map (fun c => lower_char (if c =? SPACE then UNDERSCORE else c))
      (strip (firstn 30 d)).
Proof. unfold short_title, lower, replace_char. apply List.map_map. Qed.

Lemma isspace_true c :
  isspace c = true ->
  (9 <= c <= 13 \/ 28 <= c <= 32 \/ c = 133 \/ c = 160 \/ c = 5760
   \/ 8192 <= c <= 8202 \/ c = 8232 \/ c = 8233 \/ c = 8239 \/ c = 8287
   \/ c = 12288)%N.
Proof.
  unfold isspace.
  rewrite !orb_true_iff, !andb_true_iff, !N.leb_le, !N.eqb_eq. tauto.
Qed.

Lemma title_char_cases c :
  let t := lower_char (if c =? SPACE then UNDERSCORE else c) in
  (c = SPACE /\ t = UNDERSCORE)
  \/ ((65 <= c <= 90)%N /\ t = c + 32)
  \/ (c <> SPACE /\ ~ (65 <= c <= 90)%N /\ t = c).
Proof.
  cbv zeta. destruct (N.eqb_spec c SPACE) as [->|NS].
  - left. split; reflexivity.
  - right. unfold lower_char.
    destruct (N.leb_spec 65 c); destruct (N.leb_spec c 90); cbn [andb];
      first [ left; split; [lia | reflexivity]
            | right; split; [exact NS | split; [lia | reflexivity]] ].
Qed.

Lemma title_char_visible c :
  isspace c = false ->
  isspace (lower_char (if c =? SPACE then UNDERSCORE else c)) = false.
Proof.
  intros V. destruct (title_char_cases c) as [[-> _]|[[R E]|(_ & _ & E)]];
    cbv zeta in *.
  - discriminate V.
  - rewrite E. destruct (isspace (c + 32)) eqn:W; [|reflexivity].
    apply isspace_true in W. lia.
  - rewrite E. exact V.
Qed.

Lemma title_char_clean c :
  let t := lower_char (if c =? SPACE then UNDERSCORE else c) in
  (t =? SPACE) = false /\ is_upper t = false /\ (is_ascii c = true -> is_ascii t = true).
Proof.
  cbv zeta. unfold is_upper, is_ascii.
  destruct (title_char_cases c) as [[-> E]|[[R E]|(NS & NU & E)]];
    cbv zeta in E; rewrite E.
  - repeat split; reflexivity.
  - split; [apply N.eqb_neq; unfold SPACE; lia|]. split.
    + apply andb_false_iff. right. apply N.leb_gt. lia.
    + intros _. apply N.ltb_lt. lia.
  - split; [apply N.eqb_neq; exact NS|]. split; [|exact (fun H => H)].
    apply andb_false_iff. rewrite !N.leb_gt. lia.
Qed.

Lemma title_char_fixed c :
  (c =? SPACE) = false -> is_upper c = false ->
  lower_char (if c =? SPACE then UNDERSCORE else c) = c.
Proof.
  intros S U. rewrite S. unfold lower_char. unfold is_upper in U. rewrite U.
  reflexivity.
Qed.

Lemma lstrip_length s : (length (lstrip s) <= length s)%nat.
Proof.
  induction s as [|c s IH]; [reflexivity|]. cbn [lstrip].
  destruct (isspace c); cbn [length]; lia.
Qed.

Lemma rstrip_length s : (length (rstrip s) <= length s)%nat.
Proof.
  destruct (rstrip_trailing s) as (w & E & _). rewrite E at 2.
  rewrite length_app. lia.
Qed.

Lemma strip_length s : (length (strip s) <= length s)%nat.
Proof.
  unfold strip. pose proof (rstrip_length (lstrip s)). pose proof (lstrip_length s). lia.
Qed.

Lemma forallb_strip (P : N -> bool) s :
  forallb P s = true -> forallb P (strip s) = true.
Proof.
  intros H. destruct (strip_decompose s) as (w1 & w2 & E & _ & _).
  rewrite E, !forallb_app in H. apply andb_prop in H as [_ H].
  apply andb_prop in H as [H _]. exact H.
Qed.

Lemma forallb_firstn (P : N -> bool) n (s : list N) :
  forallb P s = true -> forallb P (firstn n s) = true.
Proof.
  intros H.
  assert (E : s = firstn n s ++ skipn n s) by (symmetry; apply firstn_skipn).
  rewrite E, forallb_app in H. apply andb_prop in H as [H _]. exact H.
Qed.

Lemma lstrip_map_visible f s :
  (forall c, isspace c = false -> isspace (f c) = false) ->
  lstrip s = s -> lstrip (List.map f s) = List.map f s.
Proof.
  intros F L. destruct s as [|c s]; [reflexivity|].
  assert (V : isspace c = false) by (apply (lstrip_fixed_head _ c L); reflexivity).
  cbn [List.map lstrip]. rewrite (F c V). reflexivity.
Qed.

Lemma rstrip_map_visible f s :
  (forall c, isspace c = false -> isspace (f c) = false) ->
  rstrip s = s -> rstrip (List.map f s) = List.map f s.
Proof.
  intros F. induction s as [|c s IH]; [reflexivity|]. intros R.
  cbn [List.map rstrip]. cbn [rstrip] in R.
  destruct (rstrip s) as [|x t] eqn:E.
  - destruct (isspace c) eqn:C; [discriminate R|].
    injection R as <-. cbn [List.map rstrip]. rewrite (F c C). reflexivity.
  - injection R as R. rewrite IH by congruence. rewrite <- R. reflexivity.
Qed.

Lemma strip_map_visible f s :
  (forall c, isspace c = false -> isspace (f c) = false) ->
  strip (List.map f (strip s)) = List.map f (strip s).
Proof.
  intros F. destruct (strip_fixed_ends s) as [L R]. unfold strip at 1.
  rewrite (lstrip_map_visible f _ F L). exact (rstrip_map_visible f _ F R).
Qed.

Lemma short_title_facts d :
  (length (short_title d) <= 30)%nat
  /\ (ascii_text d = true -> ascii_text (short_title d) = true)
  /\ forallb (fun c => negb (c =? SPACE) && negb (is_upper c)) (short_title d) = true
  /\ strip (short_title d) = short_title d.
Proof.
  rewrite short_title_map. split; [|split; [|split]].
  - rewrite length_map. pose proof (strip_length (firstn 30 d)) as L.
    pose proof (firstn_le_length 30 d) as K. lia.
  - intros A. unfold ascii_text.
    assert (B : forallb is_ascii (strip (firstn 30 d)) = true)
      by (apply forallb_strip, forallb_firstn; exact A).
    rewrite forallb_forall in B. apply forallb_forall. intros x I.
    apply in_map_iff in I as (c & <- & I).
    apply (title_char_clean c), B, I.
  - apply forallb_forall. intros x I. apply in_map_iff in I as (c & <- & _).
    destruct (title_char_clean c) as (S & U & _). cbv zeta in S, U.
    rewrite S, U. reflexivity.
  - apply strip_map_visible. exact title_char_visible.
Qed.

(** X8: for a description in ASCII, the short title has at most 30
    characters, all of them ASCII, none a space and none a capital letter, and
    it neither starts nor ends with whitespace. *)
Theorem short_title_shape d :
  ascii_text d = true ->
  (length (short_title d) <= 30)%nat
  /\ ascii_text (short_title d) = true
  /\ forallb (fun c => negb (c =? SPACE) && negb (is_upper c)) (short_title d) = true
  /\ strip (short_title d) = short_title d.
Proof.
  intros A. destruct (short_title_facts d) as (L & B & C & S).
  repeat split; auto.
Qed.

Lemma short_title_shape_sample :
  (length (short_title example_description) <= 30)%nat
  /\ ascii_text (short_title example_description) = true
  /\ forallb (fun c => negb (c =? SPACE) && negb (is_upper c))
       (short_title example_description) = true
  /\ strip (short_title example_description) = short_title example_description.
Proof. exact (short_title_shape example_description eq_refl). Defined.

(** X9: for a description in ASCII, the short title of the short title is
    the short title: a title already made is left as it is. *)
Theorem short_title_idempotent d :
  ascii_text d = true -> short_title (short_title d) = short_title d.
Proof.
  intros _. destruct (short_title_facts d) as (L & _ & C & S).
  rewrite (short_title_map (short_title d)).
  rewrite (firstn_all2 (short_title d)) by exact L. rewrite S.
  rewrite <- (List.map_id (short_title d)) at 2. apply List.map_ext_in.
  intros c I. rewrite forallb_forall in C. specialize (C c I).
  apply andb_prop in C as [C1 C2]. apply negb_true_iff in C1, C2.
  apply title_char_fixed; assumption.
Qed.

Lemma short_title_idempotent_sample :
  short_title (short_title example_description) = short_title example_description.
Proof. exact (short_title_idempotent example_description eq_refl). Defined.

(** X10: the file name tells the title: two titles with the same file name
    are the same title. *)
Theorem file_name_of_injective t1 t2 :
  file_name_of t1 = file_name_of t2 -> t1 = t2.
Proof.
  unfold file_name_of. intros H. apply app_inv_head in H.
  apply app_inv_tail in H. exact H.
Qed.

Lemma file_name_of_injective_sample : py "demo" = py "demo".
Proof. exact (file_name_of_injective (py "demo") (py "demo") eq_refl). Defined.

(** * Further properties of the file write *)




(** X12: the last write wins.  When two calls of [parse_and_save_ps1] for the
    same title return one after the other, the files are what the second call
    alone would have left: the file holds the second body in the second
    encoding, and nothing of the first is kept. *)
Theorem second_save_overwrites h1 h2 raw1 raw2 title enc1 enc2 hd1 hd2 w
    n1 b1 w1 n2 b2 w2 :
  parse_and_save_ps1 h1 raw1 title enc1 hd1 w = Returned (n1, b1) w1 ->
  parse_and_save_ps1 h2 raw2 title enc2 hd2 w1 = Returned (n2, b2) w2 ->
  n2 = n1
  /\ files w2 !! n2 = Some (File enc2 b2)
  /\ files w2 = files (store n2 (File enc2 b2) w).
Proof.
  intros H1 H2.
  apply parse_and_save_ps1_returned in H1 as (_ & -> & -> & ->).
  apply parse_and_save_ps1_returned in H2 as (_ & -> & -> & ->).
  split; [reflexivity|]. unfold store. cbn [files]. split.
  - apply lookup_insert_eq.
  - apply insert_insert_eq.
Qed.

Lemma second_save_overwrites_sample :
  exists w1 w2,
    parse_and_save_ps1 sample_host sample_reply (py "demo") (py "utf-8") true blank
    = Returned (py "command_demo.ps1", ps1_body sample_host sample_reply true) w1
    /\ parse_and_save_ps1 sample_host (py "Get-Date") (py "demo") (py "ansi") false w1
       = Returned (py "command_demo.ps1", py "Get-Date") w2
    /\ files w2 !! py "command_demo.ps1" = Some (File (py "ansi") (py "Get-Date")).
Proof.
  eexists. eexists. split; [reflexivity|]. split; [reflexivity|].
  exact (proj1 (proj2 (second_save_overwrites sample_host sample_host sample_reply
                         (py "Get-Date") (py "demo") (py "utf-8") (py "ansi") true
                         false blank _ _ _ _ _ _ eq_refl eq_refl))).
Defined.

(** * Further properties of [main] *)

(** The settings [send_message_to_model] builds for a request. *)
Lemma generate_powershell_command_eq h r w :
  generate_powershell_command h r w =
  match send_message h (model_name r)
          (GenerationConfig (temperature r) (8 # 10) 40 (py "text/plain")
             (max_tokens r)) (build_prompt r) with
  | ApiText text => (Some text, w)
  | ApiRaise e => (None, show (StError (error_communicating ++ e)) w)
  end.
Proof. reflexivity. Qed.

(** [main], branch by branch. *)
Lemma main_cases h r w :
  (prompt_base r = [] /\ main h r w = Returned tt (show (StError please_enter) w))
  \/ (prompt_base r <> [] /\
      match send_message h (model_name r)
              (GenerationConfig (temperature r) (8 # 10) 40 (py "text/plain")
                 (max_tokens r)) (build_prompt r) with
      | ApiRaise e =>
          main h r w
          = Returned tt (show (StError error_generating)
                           (show (StError (error_communicating ++ e)) w))
      | ApiText [] => main h r w = Returned tt (show (StError error_generating) w)
      | ApiText (c :: t) =>
          let w3 := show (StCode (c :: t) (py "powershell"))
                      (show (StMarkdown generated_command) w) in
          let name := file_name_of (short_title (prompt_base r)) in
          let body := ps1_body h (c :: t) (add_header r) in
          match try_write h name (encoding r) body with
          | WriteOk =>
              main h r w
              = Returned tt
                  (show (StDownloadButton download_label body name
                           (py "application/powershell"))
                     (store name (File (encoding r) body) w3))
          | EncodeError =>
              main h r w = Raised (store name (File (encoding r) []) w3)
          | OpenError => main h r w = Raised w3
          end
      end).
Proof.
  unfold main. destruct (prompt_base r) as [|d ds] eqn:P.
  - left. split; reflexivity.
  - right. split; [discriminate|]. rewrite generate_powershell_command_eq.
    destruct (send_message h _ _ _) as [[|c t]|e]; try reflexivity.
    cbv zeta. unfold parse_and_save_ps1.
    destruct (try_write h _ (encoding r) _); reflexivity.
Qed.



(** The reply goes to the extraction whole, its first character included. *)
Example main_keeps_first_character :
  exists w',
    main (MkHost sample_clock (fun _ _ _ => ApiText (opener ++ py " Get-Date " ++ fence))
            (fun _ _ _ => WriteOk)) sample_request' blank = Returned tt w'
    /\ files w' !! py "command_list_all_running_processes_tha.ps1"
       = Some (File (py "ansi") (py "Get-Date")).
Proof.
  eexists. split; [reflexivity|]. cbn [show store files]. apply lookup_insert_eq.
Qed.

(** X14: for a description whose first 30 characters are ASCII, [main]
    raises only when the write of the file raises: then the model had
    answered a text that is not empty, the host refused the write, and the
    page shows the reply and no download.  A failure of the model call never
    makes [main] raise. *)
Theorem main_raises_only_on_write_failure h r w w' :
  ascii_text (firstn 30 (prompt_base r)) = true ->
  main h r w = Raised w' ->
  exists c t,
    send_message h (model_name r)
      (GenerationConfig (temperature r) (8 # 10) 40 (py "text/plain") (max_tokens r))
      (build_prompt r) = ApiText (c :: t)
    /\ try_write h (file_name_of (short_title (prompt_base r))) (encoding r)
         (ps1_body h (c :: t) (add_header r)) <> WriteOk
    /\ page w' = page w ++ [StMarkdown generated_command;
                            StCode (c :: t) (py "powershell")].
Proof.
  intros _ R. destruct (main_cases h r w) as [[_ M]|[_ M]]; [congruence|].
  destruct (send_message h _ _ _) as [[|c t]|e]; [congruence| |congruence].
  exists c, t. split; [reflexivity|]. cbv zeta in M.
  destruct (try_write h _ _ _); [congruence| |]; (split; [discriminate|]);
    rewrite M in R; injection R as <-; cbn [show store page];
    rewrite <- app_assoc; reflexivity.
Qed.

Lemma main_raises_only_on_write_failure_sample :
  exists c t,
    ApiText sample_reply = ApiText (c :: t)
    /\ page (store (file_name_of (short_title example_description))
               (File (py "utf-8") [])
               (show (StCode sample_reply (py "powershell"))
                  (show (StMarkdown generated_command) blank)))
       = page blank ++ [StMarkdown generated_command; StCode (c :: t) (py "powershell")].
Proof.
  destruct (main_raises_only_on_write_failure
              (MkHost sample_clock (fun _ _ _ => ApiText sample_reply)
                 (fun _ _ _ => EncodeError))
              sample_request blank _ eq_refl eq_refl) as (c & t & A & _ & P).
  exists c, t. split; [exact A | exact P].
Defined.

(** X16: a reply of no characters at all is handled as a failure: [main]
    shows the error of a failed generation and nothing else, and writes no
    file. *)
Theorem empty_reply_is_a_failure h r w :
  prompt_base r <> [] ->
  send_message h (model_name r)
    (GenerationConfig (temperature r) (8 # 10) 40 (py "text/plain") (max_tokens r))
    (build_prompt r) = ApiText [] ->
  main h r w = Returned tt (show (StError error_generating) w)
  /\ files (world_of (main h r w)) = files w.
Proof.
  intros P A. destruct (main_cases h r w) as [[E _]|[_ M]]; [contradiction|].
  rewrite A in M. rewrite M. split; reflexivity.
Qed.

Lemma empty_reply_is_a_failure_sample :
  main (MkHost sample_clock (fun _ _ _ => ApiText []) (fun _ _ _ => WriteOk))
    sample_request blank
  = Returned tt (show (StError error_generating) blank).
Proof.
  refine (proj1 (empty_reply_is_a_failure
                   (MkHost sample_clock (fun _ _ _ => ApiText []) (fun _ _ _ => WriteOk))
                   sample_request blank _ eq_refl)).
  discriminate.
Defined.

(** X17: a reply that is not empty and holds nothing but whitespace is not a
    failure: for a description whose first 30 characters are ASCII, where the
    host takes the file, [main] saves and offers for download a script that
    is empty, or the header alone when one is asked for. *)
Theorem blank_reply_is_saved_empty h r w c t :
  ascii_text (firstn 30 (prompt_base r)) = true ->
  prompt_base r <> [] ->
  send_message h (model_name r)
    (GenerationConfig (temperature r) (8 # 10) 40 (py "text/plain") (max_tokens r))
    (build_prompt r) = ApiText (c :: t) ->
  all_space (c :: t) = true ->
  try_write h (file_name_of (short_title (prompt_base r))) (encoding r)
    (with_header h (add_header r) []) = WriteOk ->
  exists w',
    main h r w = Returned tt w'
    /\ files w' !! file_name_of (short_title (prompt_base r))
       = Some (File (encoding r) (with_header h (add_header r) []))
    /\ last (page w')
       = Some (StDownloadButton download_label (with_header h (add_header r) [])
                 (file_name_of (short_title (prompt_base r)))
                 (py "application/powershell")).
Proof.
  intros _ P A S T. destruct (main_cases h r w) as [[E _]|[_ M]]; [contradiction|].
  rewrite A in M. cbv zeta in M. unfold ps1_body in M.
  assert (X : extract_code (c :: t) = []).
  { rewrite extract_fallback_no_opener.
    - unfold strip. rewrite (lstrip_all_space _ S). reflexivity.
    - apply no_fence_no_opener, all_space_no_fence. exact S. }
  rewrite X, T in M. eexists. split; [exact M|]. split.
  - cbn [show store files]. apply lookup_insert_eq.
  - unfold show at 1. cbn [page]. apply last_snoc.
Qed.

Lemma blank_reply_is_saved_empty_sample :
  exists w',
    main (MkHost sample_clock (fun _ _ _ => ApiText [SPACE; LF]) (fun _ _ _ => WriteOk))
      sample_request' blank = Returned tt w'
    /\ files w' !! py "command_list_all_running_processes_tha.ps1"
       = Some (File (py "ansi") []).
Proof.
  destruct (blank_reply_is_saved_empty
              (MkHost sample_clock (fun _ _ _ => ApiText [SPACE; LF])
                 (fun _ _ _ => WriteOk))
              sample_request' blank SPACE [LF]) as (w' & M & F & _);
    [reflexivity | discriminate | reflexivity | reflexivity | reflexivity |].
  exists w'. split; [exact M | exact F].
Defined.

(** * Further properties of the page *)

Lemma with_preset_nil p t :
  with_preset p t = [] <-> t = [] /\ (p = py "None" \/ p = []).
Proof.
  unfold with_preset. case_bool_decide as D.
  - split; [intros ->; split; [reflexivity | left; exact D] | intros [-> _]; reflexivity].
  - destruct t as [|c t].
    + split; [intros ->; split; [reflexivity | right; reflexivity]|].
      intros [_ [E|E]]; [contradiction | exact E].
    + split; [|intros [E _]; discriminate E].
      intros E. apply app_eq_nil in E as [_ E]. discriminate E.
Qed.

(** X19: the page asks for a description, and does nothing else, exactly
    when nothing was typed and no predefined prompt is chosen (the choice is
    "None", or empty). *)
Theorem asks_for_description_iff_nothing_given h ws w :
  on_click h ws w = Returned tt (show (StError please_enter) w)
  <-> w_prompt_base ws = [] /\ (w_prompt_presets ws = py "None" \/ w_prompt_presets ws = []).
Proof.
  rewrite <- with_preset_nil. unfold on_click.
  change (with_preset (w_prompt_presets ws) (w_prompt_base ws))
    with (prompt_base (request_of ws)).
  destruct (main_cases h (request_of ws) w) as [[E M]|[E M]].
  - split; [intros _; exact E | intros _; exact M].
  - split; [|intros F; contradiction]. intros R. exfalso.
    destruct (send_message h _ _ _) as [[|c t]|e].
    + rewrite M in R. injection R as R. apply app_inv_head in R.
      injection R as R. vm_compute in R. discriminate R.
    + cbv zeta in M. destruct (try_write h _ _ _); rewrite M in R;
        [|discriminate R|discriminate R].
      injection R as _ R. cbn [show store page] in R.
      rewrite <- !app_assoc in R. apply app_inv_head in R. discriminate R.
    + rewrite M in R. injection R as R. cbn [show page] in R.
      rewrite <- !app_assoc in R. apply app_inv_head in R. discriminate R.
Qed.

Lemma part_app_r (s a b : list N) :
  (exists x y, b = x ++ s ++ y) -> exists x y, a ++ b = x ++ s ++ y.
Proof.
  intros (x & y & ->). exists (a ++ x), y. rewrite <- app_assoc. reflexivity.
Qed.

Lemma part_found (s pre piece b : list N) :
  piece = pre ++ s -> exists x y, piece ++ b = x ++ s ++ y.
Proof. intros ->. exists pre, b. rewrite <- app_assoc. reflexivity. Qed.

(** X18: the PowerShell version and the operating system chosen on the page
    change nothing: the run is the same for every choice, and the prompt names
    Windows Server 2016 and PowerShell 7 whatever is chosen. *)
Theorem platform_choice_is_ignored h ws powershell_version operating_system w :
  on_click h (with_platform ws powershell_version operating_system) w
  = on_click h ws w
  /\ exists a b,
       build_prompt (request_of (with_platform ws powershell_version operating_system))
       = a ++ platform_sentence ++ b.
Proof.
  split; [reflexivity|]. unfold build_prompt.
  repeat first [ solve [apply (part_found platform_sentence (py "     - ")); reflexivity]
               | apply part_app_r ].
Qed.

(** * The prompt tells the request *)

Lemma peel_bool x1 x2 b1 b2 :
  x1 ++ py_bool b1 = x2 ++ py_bool b2 -> x1 = x2 /\ b1 = b2.
Proof.
  intros H. destruct b1, b2; cbn [py_bool] in H;
    first [ split; [exact (app_inv_tail _ _ _ H) | reflexivity]
          | exfalso; apply (f_equal (@rev N)) in H; rewrite !rev_app_distr in H;
            cbn in H; discriminate H ].
Qed.

Lemma peel_log_level x1 x2 o1 o2 :
  In o1 log_level_options -> In o2 log_level_options ->
  x1 ++ o1 = x2 ++ o2 -> x1 = x2 /\ o1 = o2.
Proof. unfold log_level_options. intros I1 I2 H. peel_options H. Qed.

Lemma peel_prompt_detail x1 x2 o1 o2 :
  In o1 prompt_detail_options -> In o2 prompt_detail_options ->
  x1 ++ o1 = x2 ++ o2 -> x1 = x2 /\ o1 = o2.
Proof. unfold prompt_detail_options. intros I1 I2 H. peel_options H. Qed.

Lemma peel_security_level x1 x2 o1 o2 :
  In o1 security_level_options -> In o2 security_level_options ->
  x1 ++ o1 = x2 ++ o2 -> x1 = x2 /\ o1 = o2.
Proof. unfold security_level_options. intros I1 I2 H. peel_options H. Qed.

Lemma peel_script_type x1 x2 o1 o2 :
  In o1 script_type_options -> In o2 script_type_options ->
  x1 ++ o1 = x2 ++ o2 -> x1 = x2 /\ o1 = o2.
Proof. unfold script_type_options. intros I1 I2 H. peel_options H. Qed.

Lemma peel_detail_level x1 x2 o1 o2 :
  In o1 detail_level_options -> In o2 detail_level_options ->
  x1 ++ o1 = x2 ++ o2 -> x1 = x2 /\ o1 = o2.
Proof. unfold detail_level_options. intros I1 I2 H. peel_options H. Qed.

(** X20: among requests whose options are those the page offers, the prompt
    tells the request: two such requests with the same prompt have the same
    description, detail level, script type, security level, prompt detail, log
    level and error handling choice. *)
Theorem prompt_tells_request r1 r2 :
  offered r1 -> offered r2 ->
  build_prompt r1 = build_prompt r2 ->
  prompt_base r1 = prompt_base r2
  /\ detail_level r1 = detail_level r2
  /\ script_type r1 = script_type r2
  /\ security_level r1 = security_level r2
  /\ prompt_detail r1 = prompt_detail r2
  /\ log_level r1 = log_level r2
  /\ add_error_handling r1 = add_error_handling r2.
Proof.
  intros (D1 & T1 & S1 & P1 & L1) (D2 & T2 & S2 & P2 & L2) H.
  unfold build_prompt in H. rewrite !app_assoc in H.
  repeat apply app_inv_tail in H.
  apply peel_bool in H as [H Eb].
  repeat apply app_inv_tail in H.
  apply (peel_log_level _ _ _ _ L1 L2) in H as [H El].
  repeat apply app_inv_tail in H.
  apply (peel_prompt_detail _ _ _ _ P1 P2) in H as [H Ep].
  repeat apply app_inv_tail in H.
  apply (peel_security_level _ _ _ _ S1 S2) in H as [H Es].
  repeat apply app_inv_tail in H.
  apply (peel_script_type _ _ _ _ T1 T2) in H as [H Et].
  repeat apply app_inv_tail in H.
  apply (peel_detail_level _ _ _ _ D1 D2) in H as [H Ed].
  repeat apply app_inv_tail in H.
  apply app_inv_head in H.
  repeat split; assumption.
Qed.

Lemma prompt_tells_request_sample :
  prompt_base sample_request = prompt_base sample_request'
  /\ detail_level sample_request = detail_level sample_request'
  /\ script_type sample_request = script_type sample_request'
  /\ security_level sample_request = security_level sample_request'
  /\ prompt_detail sample_request = prompt_detail sample_request'
  /\ log_level sample_request = log_level sample_request'
  /\ add_error_handling sample_request = add_error_handling sample_request'.
Proof.
  apply (prompt_tells_request sample_request sample_request');
    [unfold offered; cbn; tauto | unfold offered; cbn; tauto | reflexivity].
Defined.

(** X15: the download [main] offers and the file it wrote.  For a
    description whose first 30 characters are ASCII and the encoding utf-8,
    when [main] returns with a download button shown last, the button names
    the file made from the short title, that file holds the button's data as
    its text, and the bytes the button serves are the bytes of the file
    exactly when the system writes a line feed as it is or the data has no
    line feed. *)
Theorem main_download_is_file o h r w w' label data name mime bytes :
  ascii_text (firstn 30 (prompt_base r)) = true ->
  encoding r = py "utf-8" ->
  main h r w = Returned tt w' ->
  last (page w') = Some (StDownloadButton label data name mime) ->
  download_bytes (StDownloadButton label data name mime) = Some bytes ->
  name = file_name_of (short_title (prompt_base r))
  /\ files w' !! name = Some (File (py "utf-8") data)
  /\ (file_bytes o (File (py "utf-8") data) = Some bytes
      <-> o = posix \/ LF ∉ data).
Proof.
  intros _ U M L B. cbn [download_bytes] in B.
  destruct (main_cases h r w) as [[_ E]|[_ E]].
  - rewrite E in M. injection M as <-. unfold show in L. cbn [page] in L.
    rewrite last_snoc in L. discriminate L.
  - destruct (send_message h _ _ _) as [[|c t]|e].
    + rewrite E in M. injection M as <-. unfold show in L. cbn [page] in L.
      rewrite last_snoc in L. discriminate L.
    + cbv zeta in E. destruct (try_write h _ _ _); rewrite E in M;
        [|discriminate M|discriminate M].
      injection M as <-. unfold show at 1 in L. cbn [page] in L.
      rewrite last_snoc in L. injection L as <- <- <- <-.
      split; [reflexivity|]. split.
      * unfold show at 1. cbn [files store]. rewrite U. apply lookup_insert_eq.
      * apply file_bytes_utf8. exact B.
    + rewrite E in M. injection M as <-. unfold show in L. cbn [page] in L.
      rewrite last_snoc in L. discriminate L.
Qed.

Lemma main_download_is_file_sample :
  files (world_of (main sample_host sample_request blank))
    !! py "command_list_all_running_processes_tha.ps1"
  = Some (File (py "utf-8") (header (strftime sample_clock) ++ py "Get-Process"))
  /\ file_bytes posix
       (File (py "utf-8") (header (strftime sample_clock) ++ py "Get-Process"))
     = Some (header (strftime sample_clock) ++ py "Get-Process").
Proof.
  destruct (main_download_is_file posix sample_host sample_request blank
              (world_of (main sample_host sample_request blank)) download_label
              (header (strftime sample_clock) ++ py "Get-Process")
              (py "command_list_all_running_processes_tha.ps1")
              (py "application/powershell")
              (header (strftime sample_clock) ++ py "Get-Process")
              eq_refl eq_refl eq_refl eq_refl eq_refl) as (_ & F & B).
  split; [exact F|]. apply B. left. reflexivity.
Defined.

(** [generate_powershell_command] takes the file encoding and the header
    choice and uses neither: two requests that agree on every other argument
    get the same call of the model and the same result. *)
Theorem generation_ignores_encoding_and_header h r1 r2 w :
  prompt_base r1 = prompt_base r2 ->
  detail_level r1 = detail_level r2 ->
  script_type r1 = script_type r2 ->
  security_level r1 = security_level r2 ->
  model_name r1 = model_name r2 ->
  temperature r1 = temperature r2 ->
  max_tokens r1 = max_tokens r2 ->
  prompt_detail r1 = prompt_detail r2 ->
  add_error_handling r1 = add_error_handling r2 ->
  log_level r1 = log_level r2 ->
  generate_powershell_command h r1 w = generate_powershell_command h r2 w.
Proof.
  destruct r1, r2. cbn [prompt_base detail_level script_type security_level
    model_name temperature max_tokens prompt_detail add_error_handling log_level].
  intros -> -> -> -> -> -> -> -> -> ->. reflexivity.
Qed.

Lemma generation_ignores_encoding_and_header_sample :
  generate_powershell_command sample_host sample_request blank
  = generate_powershell_command sample_host
      (MkRequest example_description (py "Default") (py "More automatic")
         (py "Medium") (py "gemini-2.0-flash-exp") (7 # 10) 8192 (py "Default")
         (py "ansi") false true (py "Default")) blank.
Proof.
  exact (generation_ignores_encoding_and_header sample_host sample_request _ blank
           eq_refl eq_refl eq_refl eq_refl eq_refl eq_refl eq_refl eq_refl eq_refl
           eq_refl).
Defined.
